(** * safe-wipe: the guarded directory wipe of [index.js]

    A shallow embedding of [index.js] (the promise based variant that
    exports [safeWipe]; the older [maybeWipe] variant kept beside it is
    not embedded) and the properties of its decision procedure:
    containment check, emptiness check, confirmation gate, delete.

    Promises are modelled by their settled outcome together with the
    effects performed on the way, in program order.  The Node modules the
    file requires ([path], [fs], [rimraf], [readline]) are an interface
    ([Platform]) plus a queue of operator answers per input stream. *)

From Stdlib Require Import ZArith Ascii String List Bool Lia.
From stdpp Require Import base option strings gmap list.
Import ListNotations.
Local Open Scope string_scope.
Local Open Scope Z_scope.

(** ** JavaScript values the code handles *)

(** [Error] objects: [e.message] and the optional [e.code]. *)
Record error := Error { message : string; code : option string }.

(** Stream handles: the three process streams and caller-made ones. *)
Inductive stream :=
| process_stdin
| process_stdout
| process_stderr
| Handle (n : nat).

#[export] Instance stream_eq_dec : EqDecision stream.
Proof. solve_decision. Defined.

(** Values of properties the code never reads. *)
Inductive jsval :=
| JBool (b : bool)
| JStr (s : string)
| JStream (h : stream)
| JList (l : list string).

(** What a run does to the outside world, in order: [Readdir] is a call
    of fs.readdir, [Question] a call of rl.question (the query is written
    to the output stream), [Answer] the line that arrives on the input
    stream (followed by rl.close), [Rimraf] a call of rimraf and
    [StreamWrite] a call of the write method of a stream. *)
Inductive event :=
| Readdir (dir : string)
| Question (input output : stream) (query : string)
| Answer (input : stream) (line : string)
| Rimraf (dir : string)
| StreamWrite (s : stream) (text : string).

Definition LF : string := String (ascii_of_nat 10) EmptyString.

(** ** String and array primitives *)

(** [s.indexOf(t)] on strings: first position of [t] in [s], or -1. *)
Fixpoint string_indexOf_from (i : Z) (s t : string) : Z :=
  if String.prefix t s then i
  else match s with
       | EmptyString => -1
       | String _ s' => string_indexOf_from (i + 1) s' t
       end.

Definition string_indexOf (s t : string) : Z := string_indexOf_from 0 s t.

(** [l.indexOf(x)] on arrays of strings (strict equality). *)
Fixpoint array_indexOf_from (i : Z) (l : list string) (x : string) : Z :=
  match l with
  | [] => -1
  | y :: l' => if String.eqb y x then i else array_indexOf_from (i + 1) l' x
  end.

Definition array_indexOf (l : list string) (x : string) : Z :=
  array_indexOf_from 0 l x.

(** ** Regular expressions, as far as [/^y(es)?/i] needs them *)

Inductive regex :=
| Chr (c : ascii)
| Seq (r1 r2 : regex)
| Opt (r : regex).

(** Case folding of the [i] flag on ASCII letters. *)
Definition upcase (c : ascii) : ascii :=
  let n := nat_of_ascii c in
  if ((97 <=? n)%nat && (n <=? 122)%nat)%bool then ascii_of_nat (n - 32) else c.

(** All the ways [r] can match at the start of [s]: the remainders, in the
    order a backtracking matcher tries them (greedy first). *)
Fixpoint residuals (icase : bool) (r : regex) (s : string) : list string :=
  match r with
  | Chr c =>
      match s with
      | String d s' =>
          if (if icase then Ascii.eqb (upcase c) (upcase d) else Ascii.eqb c d)
          then [s'] else []
      | EmptyString => []
      end
  | Seq r1 r2 => flat_map (residuals icase r2) (residuals icase r1 s)
  | Opt r1 => residuals icase r1 s ++ [s]
  end.

(** [/^r/.test(s)]: anchored at the start, free at the end. *)
Definition regex_test_anchored (icase : bool) (r : regex) (s : string) : bool :=
  match residuals icase r s with
  | [] => false
  | _ :: _ => true
  end.

(** [/^y(es)?/i] *)
Definition yes_regex : regex :=
  Seq (Chr "y"%char) (Opt (Seq (Chr "e"%char) (Chr "s"%char))).

Definition yes_test (answer : string) : bool :=
  regex_test_anchored true yes_regex answer.

(** ** Configuration *)

(** The caller's configuration object: every property optional.  [o_extra]
    holds properties under other names; [extend] copies them along and
    nothing reads them. *)
Record options := Options {
  o_stdin : option stream;
  o_stdout : option stream;
  o_stderr : option stream;
  o_ignore : option (list string);
  o_parent : option string;
  o_interactive : option bool;
  o_force : option bool;
  o_silent : option bool;
  o_messages : option (gmap string string);
  o_extra : gmap string jsval
}.

Definition no_options : options :=
  Options None None None None None None None None None ∅.

(** The object [defaults] returns. [parent] stays [None] for [null]. *)
Record config := Config {
  stdin : stream;
  stdout : stream;
  stderr : stream;
  ignore : list string;
  parent : option string;
  interactive : bool;
  force : bool;
  silent : bool;
  messages : gmap string string;
  extra : gmap string jsval
}.

(** [extend(target, source)] on string-valued objects: the properties of
    [source] win. *)
Definition extend (target source : gmap string string) : gmap string string :=
  source ∪ target.

Definition default_messages : gmap string string :=
  {[ "contained" :=
       "Source folder seems to be contained by destination folder." +:+ LF +:+
       "Let's not wipe everything out.";
     "confirm" :=
       "[?] Destination folder will be wiped out. Are you sure you want to proceed? [y/N] ";
     "abort" := "Destination folder not empty, aborting" ]}.

Definition default_ignore : list string := [".DS_Store"; "Thumbs.db"].

(** [defaults(config)] *)
Definition defaults (c : option options) : config :=
  let o := default no_options c in
  {| stdin := default process_stdin (o_stdin o);
     stdout := default process_stdout (o_stdout o);
     stderr := default process_stderr (o_stderr o);
     ignore := default default_ignore (o_ignore o);
     parent := o_parent o;
     interactive := default true (o_interactive o);
     force := default false (o_force o);
     silent := default false (o_silent o);
     messages := extend default_messages (default ∅ (o_messages o));
     extra := o_extra o |}.

(** [config.messages.key]; a missing property reads [undefined], which
    [new Error] turns into the empty message. *)
Definition msg (config : config) (key : string) : string :=
  default "" (messages config !! key).

(** [createError(message, code)] *)
Definition createError (m c : string) : error :=
  {| message := m; code := Some c |}.

(** Truthiness of [config.parent]: [null] and the empty string are falsy. *)
Definition truthy (p : option string) : bool :=
  match p with
  | None => false
  | Some s => negb (String.eqb s "")
  end.

(** ** The platform: [path], [fs] and [rimraf] *)

(** [FS] is the state of the file system. [path_resolve] is
    [path.resolve] for the working directory of the process, [fs_readdir]
    the settled result of [fs.readdir], [fs_rimraf] the settled result of
    [rimraf] ([None] when it succeeds) and the file system it leaves. *)
Class Platform (FS : Type) := {
  path_resolve : string -> string;
  fs_readdir : string -> FS -> error + list string;
  fs_rimraf : string -> FS -> option error * FS
}.

(** The world a call runs in: the file system, the lines the operator
    will type on each input stream, and the events so far. Each line
    arrives on its own; what a closed interface does with lines that
    arrived together with the answer is not described. *)
Record world (FS : Type) := World {
  fs : FS;
  lines : stream -> list string;
  log : list event
}.
Arguments World {FS} _ _ _.
Arguments fs {FS} _.
Arguments lines {FS} _ _.
Arguments log {FS} _.

(** ** Promises *)

Inductive outcome (A : Type) :=
| Fulfilled (a : A)
| Rejected (e : error)
| Pending.
Arguments Fulfilled {A} _.
Arguments Rejected {A} _.
Arguments Pending {A}.

Definition promise (FS A : Type) : Type := world FS -> outcome A * world FS.

Section Promises.
Context {FS : Type}.

Definition emit (ev : event) (w : world FS) : world FS :=
  World (fs w) (lines w) (log w ++ [ev]).

(** [Promise.resolve(a)] *)
Definition resolved {A} (a : A) : promise FS A := fun w => (Fulfilled a, w).

(** A [throw e] inside a callback, [reject(e)] inside an executor. *)
Definition rejected {A} (e : error) : promise FS A := fun w => (Rejected e, w).

(** [p.then(f)] *)
Definition and_then {A B} (p : promise FS A) (f : A -> promise FS B)
  : promise FS B :=
  fun w =>
    match p w with
    | (Fulfilled a, w') => f a w'
    | (Rejected e, w') => (Rejected e, w')
    | (Pending, w') => (Pending, w')
    end.

(** [p.catch(h)] *)
Definition and_catch {A} (p : promise FS A) (h : error -> promise FS A)
  : promise FS A :=
  fun w =>
    match p w with
    | (Rejected e, w') => h e w'
    | r => r
    end.

(** [s.write(text)] *)
Definition write (s : stream) (text : string) : promise FS unit :=
  fun w => (Fulfilled tt, emit (StreamWrite s text) w).
End Promises.

Notation "p '>>=' f" := (and_then p f) (at level 60, right associativity).

(** ** The functions of [index.js] *)

Section SafeWipe.
Context {FS : Type} `{Platform FS}.

(** [util.promisify(fs.readdir)] *)
Definition readdir (dir : string) : promise FS (list string) :=
  fun w =>
    let w' := emit (Readdir dir) w in
    match fs_readdir dir (fs w) with
    | inr files => (Fulfilled files, w')
    | inl e => (Rejected e, w')
    end.

(** [util.promisify(require('rimraf'))] *)
Definition rimraf (dir : string) : promise FS unit :=
  fun w =>
    let (r, fs') := fs_rimraf dir (fs w) in
    let w' := World fs' (lines w) (log w ++ [Rimraf dir]) in
    match r with
    | None => (Fulfilled tt, w')
    | Some e => (Rejected e, w')
    end.

(** [prompt(question, config)]: a readline interface on [config.stdin]
    and [config.stdout]; the callback runs when a line arrives, closes
    the interface and resolves with the line. With no line the promise
    never settles. *)
Definition prompt (question : string) (config : config) : promise FS string :=
  fun w =>
    let w1 := emit (Question (stdin config) (stdout config) question) w in
    match lines w1 (stdin config) with
    | answer :: rest =>
        let lines' := fun s =>
          if decide (s = stdin config) then rest else lines w1 s in
        (Fulfilled answer,
         World (fs w1) lines' (log w1 ++ [Answer (stdin config) answer]))
    | [] => (Pending, w1)
    end.

(** [isParent(dir, parent)] *)
Definition isParent (dir parent : string) : bool :=
  string_indexOf (path_resolve dir) (path_resolve parent) =? 0.

(** [isEmpty(dir, config)] *)
Definition isEmpty (dir : string) (config : config) : promise FS bool :=
  and_catch
    (readdir dir >>= fun files =>
       let files :=
         filter (fun file => array_indexOf (ignore config) file = -1) files in
       resolved (Z.of_nat (length files) =? 0))
    (fun e =>
       match code e with
       | Some c => if String.eqb c "ENOENT" then resolved true else rejected e
       | None => rejected e
       end).

(** [checkParent(dir, config)]; only called with a truthy
    [config.parent]. *)
Definition checkParent (dir : string) (config : config) : promise FS unit :=
  match parent config with
  | Some p =>
      if isParent p dir
      then rejected (createError (msg config "contained") "CONTAINED")
      else resolved tt
  | None => resolved tt
  end.

(** [checkEmpty(dir, config)] *)
Definition checkEmpty (dir : string) (config : config) : promise FS unit :=
  isEmpty dir config >>= fun empty =>
    if empty then resolved tt
    else if force config then resolved tt
    else if negb (interactive config)
    then rejected (createError (msg config "abort") "ABORT")
    else
      prompt (msg config "confirm") config >>= fun answer =>
        let proceed := yes_test answer in
        if negb proceed
        then rejected (createError (msg config "abort") "ABORT")
        else resolved tt.

(** The chain of [safeWipeRaw] before the [catch] is attached. *)
Definition pipeline (dir : string) (config : config) : promise FS unit :=
  let p := resolved tt in
  let p := if truthy (parent config)
           then p >>= fun _ => checkParent dir config
           else p in
  let p := p >>= fun _ => checkEmpty dir config in
  p >>= fun _ => rimraf dir.

(** [safeWipeRaw(dir, config)] *)
Definition safeWipeRaw (dir : string) (config : config) : promise FS unit :=
  let p := pipeline dir config in
  if negb (silent config)
  then and_catch p (fun e =>
         write (stderr config) (message e +:+ LF) >>= fun _ => rejected e)
  else p.

(** What a call on a directory returns to JavaScript: a promise (here
    its outcome) or [undefined]. *)
Inductive result :=
| Promise (o : outcome unit)
| Undefined.

(** A function of a directory and whatever else is passed with it. *)
Definition wiper : Type :=
  string -> option options -> world FS -> result * world FS.

(** [safeWipeNew(config)]: the function it returns declares the one
    parameter [dir], so a second argument is dropped, and its body has
    no [return]. *)
Definition safeWipeNew (c : option options) : wiper :=
  let config := defaults c in
  fun dir _ w =>
    let (_, w') := safeWipeRaw dir config w in
    (Undefined, w').

(** The first argument of the exported function: a directory, or an
    object ([typeof dir === 'object']). *)
Inductive argument :=
| Dir (dir : string)
| Obj (c : options).

(** What the exported function returns. *)
Inductive returned :=
| Result (r : result)
| Function (f : wiper).

(** [module.exports = function safeWipe (dir, config)] *)
Definition safeWipe (a : argument) (c : option options) (w : world FS)
  : returned * world FS :=
  match a with
  | Obj o => (Function (safeWipeNew (Some o)), w)
  | Dir dir =>
      let (o, w') := safeWipeRaw dir (defaults c) w in
      (Result (Promise o), w')
  end.
End SafeWipe.

Arguments result : clear implicits.
Arguments wiper : clear implicits.
Arguments returned : clear implicits.

(** ** A concrete platform: POSIX paths and a file system in memory *)

Module Posix.

(** The segments of a path between its slashes. *)
Fixpoint segments_from (cur : string) (s : string) : list string :=
  match s with
  | EmptyString => [cur]
  | String c s' =>
      if Ascii.eqb c "/"%char
      then cur :: segments_from "" s'
      else segments_from (cur +:+ String c "") s'
  end.

Definition segments (s : string) : list string := segments_from "" s.

(** Normalisation of an absolute path: empty and [.] segments vanish,
    [..] drops the segment before it, the root has no parent. The
    stack holds the kept segments, last first. *)
Definition step (stack : list string) (seg : string) : list string :=
  if String.eqb seg "" then stack
  else if String.eqb seg "." then stack
  else if String.eqb seg ".." then tail stack
  else seg :: stack.

Definition normalize (s : string) : string :=
  "/" +:+ String.concat "/" (rev (fold_left step (segments s) [])).

Definition absolute (s : string) : bool :=
  match s with
  | String c _ => Ascii.eqb c "/"%char
  | EmptyString => false
  end.

(** [path.resolve(p)] with one argument, in a process whose working
    directory is [cwd]. *)
Definition resolve (cwd p : string) : string :=
  if String.eqb p "" then normalize cwd
  else if absolute p then normalize p
  else normalize (cwd +:+ "/" +:+ p).

(** Directories by resolved path, each with what listing it yields;
    [busy] are the paths [rimraf] fails on. *)
Record memfs := MemFs {
  dirs : gmap string (error + list string);
  busy : list string
}.

Definition ENOENT (syscall p : string) : error :=
  {| message := "ENOENT: no such file or directory, " +:+ syscall +:+ " '" +:+ p +:+ "'";
     code := Some "ENOENT" |}.

Definition EACCES (syscall p : string) : error :=
  {| message := "EACCES: permission denied, " +:+ syscall +:+ " '" +:+ p +:+ "'";
     code := Some "EACCES" |}.

Definition EBUSY (syscall p : string) : error :=
  {| message := "EBUSY: resource busy or locked, " +:+ syscall +:+ " '" +:+ p +:+ "'";
     code := Some "EBUSY" |}.

(** [q] is [p] or lies below it. *)
Definition below (p q : string) : bool :=
  String.eqb p q || String.prefix (p +:+ "/") q || String.eqb p "/".

Definition mem_readdir (cwd p : string) (m : memfs) : error + list string :=
  match dirs m !! resolve cwd p with
  | Some r => r
  | None => inl (ENOENT "scandir" p)
  end.

(** The listing of directory [k] once everything below [r] is gone. *)
Definition prune (r k : string) (v : error + list string)
  : error + list string :=
  match v with
  | inr l => inr (List.filter (fun e => negb (below r (normalize (k +:+ "/" +:+ e)))) l)
  | inl e => inl e
  end.

Definition mem_rimraf (cwd p : string) (m : memfs) : option error * memfs :=
  let r := resolve cwd p in
  if existsb (String.eqb r) (busy m)
  then (Some (EBUSY "rmdir" p), m)
  else (None,
        MemFs (map_imap (fun k v => if below r k then None else Some (prune r k v))
                        (dirs m))
              (busy m)).

Definition platform (cwd : string) : Platform memfs :=
  {| path_resolve := resolve cwd;
     fs_readdir := mem_readdir cwd;
     fs_rimraf := mem_rimraf cwd |}.

(** A world with the given directories, one operator typing [answers]
    on the process's standard input, and no event yet. *)
Definition start (ds : list (string * (error + list string)))
    (locked : list string) (answers : list string) : world memfs :=
  World (MemFs (list_to_map ds) locked)
        (fun s => if decide (s = process_stdin) then answers else [])
        [].

End Posix.

(** A process in [/home/user]. *)
#[export] Instance home : Platform Posix.memfs := Posix.platform "/home/user".


(** What a call leaves behind, for statements about runs. *)
Definition events {FS} (before after : world FS) (evs : list event) : Prop :=
  log after = (log before ++ evs)%list.

Definition is_question (ev : event) : bool :=
  match ev with Question _ _ _ => true | _ => false end.

Definition is_rimraf (ev : event) : bool :=
  match ev with Rimraf _ => true | _ => false end.

Definition is_write (ev : event) : bool :=
  match ev with StreamWrite _ _ => true | _ => false end.

(** The entries of a listing that [config.ignore] does not name. *)
Definition kept (config : config) (files : list string) : list string :=
  filter (fun file => array_indexOf (ignore config) file = -1) files.


(** The containment verdict [safeWipeRaw] acts on: a truthy
    [config.parent] whose resolved form starts with that of [dir]. *)
Definition contained {FS : Type} `{!Platform FS} (dir : string) (config : config) : bool :=
  match parent config with
  | Some p => truthy (Some p) && isParent p dir
  | None => false
  end.

(** The listing failed with the code of a missing directory. *)
Definition is_enoent (e : error) : bool :=
  match code e with
  | Some c => String.eqb c "ENOENT"
  | None => false
  end.

(** The first character of an answer is [y] or [Y]. *)
Definition starts_with_y (answer : string) : bool :=
  match answer with
  | String c _ => Ascii.eqb c "y"%char || Ascii.eqb c "Y"%char
  | EmptyString => false
  end.

(** The world after the question was put and [answer] came back. *)
Definition answered {FS : Type} (config : config) (answer : string)
    (rest : list string) (w : world FS) : world FS :=
  World (fs w)
        (fun s => if decide (s = stdin config) then rest else lines w s)
        (log w ++ [Question (stdin config) (stdout config) (msg config "confirm");
                   Answer (stdin config) answer]).

(** The two typed failures. *)
Definition abort (config : config) : error :=
  createError (msg config "abort") "ABORT".

Definition containment (config : config) : error :=
  createError (msg config "contained") "CONTAINED".

(** ** Sample calls *)

(** [{parent: P}] *)
Definition parent_only (P : string) : options :=
  Options None None None None (Some P) None None None None ∅.



(** [{force: true}], with [interactive] set or left out. *)
Definition forced (i : option bool) : options :=
  Options None None None None None i (Some true) None None ∅.


(** ** The runs of the decision procedure

    The ways a call can go, each with its outcome, the world it leaves
    and the events it adds: the containment check, then one listing,
    then the gate, then the delete. *)

Inductive gate_run {FS : Type} `{!Platform FS}
    (dir : string) (config : config) (w : world FS)
  : outcome unit -> world FS -> list event -> Prop :=
| run_contained :
    contained dir config = true ->
    gate_run dir config w (Rejected (containment config)) w []
| run_listing_failed (e : error) :
    contained dir config = false ->
    fs_readdir dir (fs w) = inl e ->
    is_enoent e = false ->
    gate_run dir config w (Rejected e) (emit (Readdir dir) w) [Readdir dir]
| run_missing (e : error) :
    contained dir config = false ->
    fs_readdir dir (fs w) = inl e ->
    is_enoent e = true ->
    gate_run dir config w
      (fst (rimraf dir (emit (Readdir dir) w)))
      (snd (rimraf dir (emit (Readdir dir) w)))
      [Readdir dir; Rimraf dir]
| run_empty (files : list string) :
    contained dir config = false ->
    fs_readdir dir (fs w) = inr files ->
    kept config files = [] ->
    gate_run dir config w
      (fst (rimraf dir (emit (Readdir dir) w)))
      (snd (rimraf dir (emit (Readdir dir) w)))
      [Readdir dir; Rimraf dir]
| run_forced (files : list string) :
    contained dir config = false ->
    fs_readdir dir (fs w) = inr files ->
    kept config files <> [] ->
    force config = true ->
    gate_run dir config w
      (fst (rimraf dir (emit (Readdir dir) w)))
      (snd (rimraf dir (emit (Readdir dir) w)))
      [Readdir dir; Rimraf dir]
| run_refused (files : list string) :
    contained dir config = false ->
    fs_readdir dir (fs w) = inr files ->
    kept config files <> [] ->
    force config = false ->
    interactive config = false ->
    gate_run dir config w (Rejected (abort config)) (emit (Readdir dir) w)
      [Readdir dir]
| run_waiting (files : list string) :
    contained dir config = false ->
    fs_readdir dir (fs w) = inr files ->
    kept config files <> [] ->
    force config = false ->
    interactive config = true ->
    lines w (stdin config) = [] ->
    gate_run dir config w Pending
      (emit (Question (stdin config) (stdout config) (msg config "confirm"))
            (emit (Readdir dir) w))
      [Readdir dir;
       Question (stdin config) (stdout config) (msg config "confirm")]
| run_confirmed (files : list string) (answer : string) (rest : list string) :
    contained dir config = false ->
    fs_readdir dir (fs w) = inr files ->
    kept config files <> [] ->
    force config = false ->
    interactive config = true ->
    lines w (stdin config) = answer :: rest ->
    yes_test answer = true ->
    gate_run dir config w
      (fst (rimraf dir (answered config answer rest (emit (Readdir dir) w))))
      (snd (rimraf dir (answered config answer rest (emit (Readdir dir) w))))
      [Readdir dir;
       Question (stdin config) (stdout config) (msg config "confirm");
       Answer (stdin config) answer;
       Rimraf dir]
| run_declined (files : list string) (answer : string) (rest : list string) :
    contained dir config = false ->
    fs_readdir dir (fs w) = inr files ->
    kept config files <> [] ->
    force config = false ->
    interactive config = true ->
    lines w (stdin config) = answer :: rest ->
    yes_test answer = false ->
    gate_run dir config w (Rejected (abort config))
      (answered config answer rest (emit (Readdir dir) w))
      [Readdir dir;
       Question (stdin config) (stdout config) (msg config "confirm");
       Answer (stdin config) answer].

(** What [safeWipeRaw] adds after a chain that settled as [o]. *)
Definition echo (config : config) (o : outcome unit) : list event :=
  match o with
  | Rejected e =>
      if silent config then []
      else [StreamWrite (stderr config) (message e +:+ LF)]
  | _ => []
  end.


(** [{input: Handle 1, output: Handle 2, error: Handle 3}] *)
Definition renamed_streams : options :=
  Options None None None None None None None None None
    {[ "input" := JStream (Handle 1);
       "output" := JStream (Handle 2);
       "error" := JStream (Handle 3) ]}.

(** [{stdin: Handle 1, stdout: Handle 2, stderr: Handle 3}] *)
Definition own_streams : options :=
  Options (Some (Handle 1)) (Some (Handle 2)) (Some (Handle 3))
    None None None None None None ∅.

(** The same object with other properties beside the ones read. *)
Definition with_extra (o : options) (x : gmap string jsval) : options :=
  Options (o_stdin o) (o_stdout o) (o_stderr o) (o_ignore o) (o_parent o)
    (o_interactive o) (o_force o) (o_silent o) (o_messages o) x.

(** [/home/user/out] holds [a.txt]; the operator types [on1] on stream
    [Handle 1] and [on0] on the standard input of the process. *)
Definition two_keyboards (on1 on0 : list string) : world Posix.memfs :=
  World (Posix.MemFs {[ "/home/user/out" := inr ["a.txt"] ]} [])
        (fun s => if decide (s = Handle 1) then on1
                  else if decide (s = process_stdin) then on0 else [])
        [].

(** [{interactive: false}] and [{force: true}] of the README. *)
Definition not_interactive : options :=
  Options None None None None None (Some false) None None None ∅.


(** The same object with [silent] and [stderr] set anew. *)
Definition with_reporting (o : options) (quiet : option bool)
    (err : option stream) : options :=
  Options (o_stdin o) (o_stdout o) err (o_ignore o) (o_parent o)
    (o_interactive o) (o_force o) quiet (o_messages o) (o_extra o).

(** The question [checkEmpty] puts. *)
Definition question (config : config) : event :=
  Question (stdin config) (stdout config) (msg config "confirm").

(** * Properties *)

(** ** Primitives *)

Lemma string_indexOf_from_range (s t : string) (i : Z) :
  string_indexOf_from i s t = -1 \/ i <= string_indexOf_from i s t.
Proof.
  revert i. induction s as [|c s IH]; intros i; cbn [string_indexOf_from].
  - destruct (String.prefix t ""); lia.
  - destruct (String.prefix t (String c s)); [lia|].
    destruct (IH (i + 1)); lia.
Qed.

(** [s.indexOf(t) === 0] says that [s] starts with [t]. *)
Lemma string_indexOf_zero (s t : string) :
  (string_indexOf s t =? 0) = String.prefix t s.
Proof.
  unfold string_indexOf.
  destruct s as [|c s]; cbn [string_indexOf_from].
  - destruct (String.prefix t ""); reflexivity.
  - destruct (String.prefix t (String c s)); [reflexivity|].
    destruct (string_indexOf_from_range s t (0 + 1)) as [E|E]; [rewrite E; reflexivity|].
    apply Z.eqb_neq. lia.
Qed.

Lemma array_indexOf_from_range (l : list string) (x : string) (i : Z) :
  array_indexOf_from i l x = -1 \/ i <= array_indexOf_from i l x.
Proof.
  revert i. induction l as [|y l IH]; intros i; cbn [array_indexOf_from]; [lia|].
  destruct (String.eqb y x); [lia|]. destruct (IH (i + 1)); lia.
Qed.

(** [l.indexOf(x) === -1] says that [x] is not an element of [l]. *)
Lemma array_indexOf_absent (l : list string) (x : string) :
  array_indexOf l x = -1 <-> ~ In x l.
Proof.
  unfold array_indexOf.
  assert (G : forall i, 0 <= i ->
            (array_indexOf_from i l x = -1 <-> ~ In x l)).
  { induction l as [|y l IH]; intros j Hj; simpl; [tauto|].
    destruct (String.eqb_spec y x) as [->|Hne].
    - split; [lia|]. intros Hn. exfalso. apply Hn. now left.
    - rewrite (IH (j + 1)) by lia. intuition congruence. }
  apply G. lia.
Qed.

Lemma upcase_y (d : ascii) :
  Ascii.eqb (upcase "y"%char) (upcase d)
  = (Ascii.eqb d "y"%char || Ascii.eqb d "Y"%char)%bool.
Proof. destruct d as [[] [] [] [] [] [] [] []]; reflexivity. Qed.

(** [/^y(es)?/i] accepts exactly the strings whose first character is
    [y] or [Y]: the group is optional and nothing anchors the end. *)
Lemma yes_test_first_char (answer : string) :
  yes_test answer = starts_with_y answer.
Proof.
  destruct answer as [|d rest]; [reflexivity|].
  unfold yes_test, regex_test_anchored, yes_regex, starts_with_y.
  cbn [residuals]. rewrite upcase_y.
  destruct (Ascii.eqb d "y" || Ascii.eqb d "Y")%bool; [|reflexivity].
  cbn [flat_map].
  match goal with |- context [(?l ++ [rest])%list] => destruct l end;
    reflexivity.
Qed.

(** ** The configuration resolver *)

(** A message the caller supplies wins; the others keep the built-in
    text, whatever else the caller's [messages] holds. *)
Lemma msg_defaults (c : option options) (key : string) :
  msg (defaults c) key =
    match default ∅ (o_messages (default no_options c)) !! key with
    | Some m => m
    | None => default "" (default_messages !! key)
    end.
Proof.
  unfold msg, defaults, extend. cbn [messages].
  rewrite lookup_union.
  destruct (default ∅ (o_messages (default no_options c)) !! key) as [m|];
    destruct (default_messages !! key); reflexivity.
Qed.

Lemma length_zero {A} (l : list A) :
  (Z.of_nat (length l) =? 0) = match l with [] => true | _ => false end.
Proof. destruct l; reflexivity. Qed.

(** ** The paths through [checkEmpty] and [safeWipeRaw] *)

Section Runs.
Context {FS : Type} `{!Platform FS}.
Implicit Types (dir : string) (config : config) (w : world FS).

Lemma isParent_prefix (p dir : string) :
  isParent p dir = String.prefix (path_resolve dir) (path_resolve p).
Proof. unfold isParent. apply string_indexOf_zero. Qed.

Lemma isEmpty_listed dir config w files :
  fs_readdir dir (fs w) = inr files ->
  isEmpty dir config w =
    (Fulfilled (match kept config files with [] => true | _ => false end),
     emit (Readdir dir) w).
Proof.
  intros E. unfold isEmpty, and_catch, and_then, readdir, resolved.
  cbn [fs emit]. rewrite E, length_zero. reflexivity.
Qed.

Lemma isEmpty_missing dir config w e :
  fs_readdir dir (fs w) = inl e -> is_enoent e = true ->
  isEmpty dir config w = (Fulfilled true, emit (Readdir dir) w).
Proof.
  intros E N. unfold isEmpty, and_catch, and_then, readdir, resolved.
  cbn [fs emit]. rewrite E. unfold is_enoent in N.
  destruct (code e) as [c|]; [|discriminate]. rewrite N. reflexivity.
Qed.

Lemma isEmpty_fails dir config w e :
  fs_readdir dir (fs w) = inl e -> is_enoent e = false ->
  isEmpty dir config w = (Rejected e, emit (Readdir dir) w).
Proof.
  intros E N. unfold isEmpty, and_catch, and_then, readdir, rejected.
  cbn [fs emit]. rewrite E. unfold is_enoent in N.
  destruct (code e) as [c|]; [rewrite N|]; reflexivity.
Qed.

Lemma prompt_answered config w answer rest :
  lines w (stdin config) = answer :: rest ->
  prompt (msg config "confirm") config w
  = (Fulfilled answer, answered config answer rest w).
Proof.
  intros E. unfold prompt, answered, emit. cbn [lines fs log].
  rewrite E. rewrite <- app_assoc. reflexivity.
Qed.

Lemma prompt_unanswered config w :
  lines w (stdin config) = [] ->
  prompt (msg config "confirm") config w
  = (Pending,
     emit (Question (stdin config) (stdout config) (msg config "confirm")) w).
Proof. intros E. unfold prompt. cbn [lines emit]. rewrite E. reflexivity. Qed.

(** Effectively empty: the gate lets the call through unasked. *)
Lemma checkEmpty_missing dir config w e :
  fs_readdir dir (fs w) = inl e -> is_enoent e = true ->
  checkEmpty dir config w = (Fulfilled tt, emit (Readdir dir) w).
Proof.
  intros E N. unfold checkEmpty, and_then.
  rewrite (isEmpty_missing _ _ _ _ E N). reflexivity.
Qed.

Lemma checkEmpty_fails dir config w e :
  fs_readdir dir (fs w) = inl e -> is_enoent e = false ->
  checkEmpty dir config w = (Rejected e, emit (Readdir dir) w).
Proof.
  intros E N. unfold checkEmpty, and_then.
  rewrite (isEmpty_fails _ _ _ _ E N). reflexivity.
Qed.

Lemma checkEmpty_empty dir config w files :
  fs_readdir dir (fs w) = inr files -> kept config files = [] ->
  checkEmpty dir config w = (Fulfilled tt, emit (Readdir dir) w).
Proof.
  intros E K. unfold checkEmpty, and_then.
  rewrite (isEmpty_listed _ _ _ _ E), K. reflexivity.
Qed.

Lemma checkEmpty_force dir config w files :
  fs_readdir dir (fs w) = inr files -> force config = true ->
  checkEmpty dir config w = (Fulfilled tt, emit (Readdir dir) w).
Proof.
  intros E F. unfold checkEmpty, and_then.
  rewrite (isEmpty_listed _ _ _ _ E), F.
  destruct (kept config files); reflexivity.
Qed.

Lemma checkEmpty_abort dir config w files :
  fs_readdir dir (fs w) = inr files -> kept config files <> [] ->
  force config = false -> interactive config = false ->
  checkEmpty dir config w = (Rejected (abort config), emit (Readdir dir) w).
Proof.
  intros E K F I. unfold checkEmpty, and_then.
  rewrite (isEmpty_listed _ _ _ _ E), F, I.
  destruct (kept config files); [congruence|reflexivity].
Qed.

Lemma checkEmpty_unanswered dir config w files :
  fs_readdir dir (fs w) = inr files -> kept config files <> [] ->
  force config = false -> interactive config = true ->
  lines w (stdin config) = [] ->
  checkEmpty dir config w
  = (Pending,
     emit (Question (stdin config) (stdout config) (msg config "confirm"))
          (emit (Readdir dir) w)).
Proof.
  intros E K F I L. unfold checkEmpty, and_then.
  rewrite (isEmpty_listed _ _ _ _ E), F, I.
  destruct (kept config files); [congruence|]. cbn [negb].
  rewrite prompt_unanswered by exact L. reflexivity.
Qed.

Lemma checkEmpty_answered dir config w files answer rest :
  fs_readdir dir (fs w) = inr files -> kept config files <> [] ->
  force config = false -> interactive config = true ->
  lines w (stdin config) = answer :: rest ->
  checkEmpty dir config w
  = (if yes_test answer then Fulfilled tt else Rejected (abort config),
     answered config answer rest (emit (Readdir dir) w)).
Proof.
  intros E K F I L. unfold checkEmpty, and_then.
  rewrite (isEmpty_listed _ _ _ _ E), F, I.
  destruct (kept config files); [congruence|]. cbn [negb].
  rewrite (prompt_answered _ _ answer rest) by exact L.
  destruct (yes_test answer); reflexivity.
Qed.
End Runs.

Section Pipeline.
Context {FS : Type} `{!Platform FS}.
Implicit Types (dir : string) (config : config) (w : world FS).

(** A contained target is rejected at once: the world is untouched. *)
Lemma pipeline_contained dir config w :
  contained dir config = true ->
  pipeline dir config w = (Rejected (containment config), w).
Proof.
  unfold contained, pipeline, checkParent, and_then, resolved, rejected.
  destruct (parent config) as [p|]; [|discriminate].
  intros [T P]%andb_prop. rewrite T, P. reflexivity.
Qed.

(** Otherwise the call goes on to the emptiness check, then the delete. *)
Lemma pipeline_checked dir config w :
  contained dir config = false ->
  pipeline dir config w = (checkEmpty dir config >>= fun _ => rimraf dir) w.
Proof.
  unfold contained, pipeline, checkParent, and_then, resolved, rejected.
  destruct (parent config) as [p|]; [|reflexivity].
  destruct (truthy (Some p)); [|reflexivity].
  cbn [andb]. intros ->. reflexivity.
Qed.

(** The echo of [safeWipeRaw] on a failing chain. *)
Lemma safeWipeRaw_rejected dir config w e w1 :
  pipeline dir config w = (Rejected e, w1) ->
  safeWipeRaw dir config w =
    (Rejected e,
     if silent config then w1
     else emit (StreamWrite (stderr config) (message e +:+ LF)) w1).
Proof.
  intros E. unfold safeWipeRaw, and_catch, and_then, write, rejected.
  destruct (silent config); cbn [negb]; rewrite E; reflexivity.
Qed.

Lemma safeWipeRaw_fulfilled dir config w w1 :
  pipeline dir config w = (Fulfilled tt, w1) ->
  safeWipeRaw dir config w = (Fulfilled tt, w1).
Proof.
  intros E. unfold safeWipeRaw, and_catch.
  destruct (silent config); cbn [negb]; rewrite E; reflexivity.
Qed.

Lemma safeWipeRaw_pending dir config w w1 :
  pipeline dir config w = (Pending, w1) ->
  safeWipeRaw dir config w = (Pending, w1).
Proof.
  intros E. unfold safeWipeRaw, and_catch.
  destruct (silent config); cbn [negb]; rewrite E; reflexivity.
Qed.

(** The delete that ends the chain, once the gate has let it through. *)
Lemma rimraf_run dir w :
  rimraf dir w =
    (match fst (fs_rimraf dir (fs w)) with
     | None => Fulfilled tt
     | Some e => Rejected e
     end,
     World (snd (fs_rimraf dir (fs w))) (lines w) (log w ++ [Rimraf dir])).
Proof.
  unfold rimraf. destruct (fs_rimraf dir (fs w)) as [[e|] fs']; reflexivity.
Qed.
End Pipeline.

(** ** Containment *)




(** ** The non-interactive refusal *)




(** ** Force mode *)

(** A call that the containment check and the gate let through unasked
    is the listing, then the delete, and settles as the delete does. *)
Lemma unasked_call {FS : Type} `{!Platform FS}
    (dir : string) (config : config) (w : world FS) :
  contained dir config = false ->
  checkEmpty dir config w = (Fulfilled tt, emit (Readdir dir) w) ->
  safeWipeRaw dir config w =
    match fst (fs_rimraf dir (fs w)) with
    | None =>
        (Fulfilled tt,
         World (snd (fs_rimraf dir (fs w))) (lines w)
               (log w ++ [Readdir dir; Rimraf dir])%list)
    | Some e =>
        (Rejected e,
         World (snd (fs_rimraf dir (fs w))) (lines w)
               (log w ++ [Readdir dir; Rimraf dir]
                      ++ (if silent config then []
                          else [StreamWrite (stderr config) (message e +:+ LF)]))%list)
    end.
Proof.
  intros C G.
  assert (P : pipeline dir config w =
              (match fst (fs_rimraf dir (fs w)) with
               | None => Fulfilled tt
               | Some e => Rejected e
               end,
               World (snd (fs_rimraf dir (fs w))) (lines w)
                     (log w ++ [Readdir dir; Rimraf dir])%list)).
  { rewrite (pipeline_checked _ _ _ C). unfold and_then. rewrite G.
    rewrite rimraf_run. cbn [emit fs lines log].
    rewrite <- app_assoc. reflexivity. }
  destruct (fst (fs_rimraf dir (fs w))) as [e|].
  - rewrite (safeWipeRaw_rejected _ _ _ _ _ P).
    destruct (silent config); unfold emit; cbn [fs lines log].
    + now rewrite app_nil_r.
    + now rewrite <- app_assoc.
  - exact (safeWipeRaw_fulfilled _ _ _ _ P).
Qed.

(** C4, as the code has it: for every non-empty directory D and both
    values of the interactive flag (or none), a call with [force: true]
    goes from the listing straight to the external delete and no
    question is put; the call settles as that delete does: it succeeds
    when the delete succeeds, and when the delete fails it fails with
    the delete's error, echoed on the error stream. *)
Theorem C4_force_skips_prompt {FS : Type} `{!Platform FS}
    (dir : string) (i : option bool) (w : world FS) (files : list string) :
  fs_readdir dir (fs w) = inr files ->
  files <> [] ->
  safeWipe (Dir dir) (Some (forced i)) w =
    match fst (fs_rimraf dir (fs w)) with
    | None =>
        (Result (Promise (Fulfilled tt)),
         World (snd (fs_rimraf dir (fs w))) (lines w)
               (log w ++ [Readdir dir; Rimraf dir])%list)
    | Some e =>
        (Result (Promise (Rejected e)),
         World (snd (fs_rimraf dir (fs w))) (lines w)
               (log w ++ [Readdir dir; Rimraf dir;
                          StreamWrite process_stderr (message e +:+ LF)])%list)
    end.
Proof.
  intros E _. unfold safeWipe.
  rewrite (unasked_call dir (defaults (Some (forced i))) w eq_refl
             (checkEmpty_force dir (defaults (Some (forced i))) w files E eq_refl)).
  destruct (fst (fs_rimraf dir (fs w))); reflexivity.
Qed.

(** [out] holds [a.txt]; [force] is set and [interactive] is off. *)
Lemma C4_force_skips_prompt_witness :
  let w := Posix.start [("/home/user/out", inr ["a.txt"])] [] [] in
  fs_readdir "out" (fs w) = inr ["a.txt"] /\
  ["a.txt"] <> [] /\
  safeWipe (Dir "out") (Some (forced (Some false))) w =
    (Result (Promise (Fulfilled tt)),
     World (Posix.MemFs ∅ []) (lines w) (log w ++ [Readdir "out"; Rimraf "out"])).
Proof.
  intros w.
  split; [reflexivity|]. split; [discriminate|].
  assert (N : ["a.txt"] <> []) by discriminate.
  exact (C4_force_skips_prompt "out" (Some false) w ["a.txt"] eq_refl N).
Defined.

(** C4 as stated fails when the external delete fails: on a non-empty
    directory that is busy, the forced call lists, deletes without
    asking, and fails with the delete's error, for every setting of
    [interactive]. *)
Lemma C4_busy_counterexample :
  let w := Posix.start [("/home/user/out", inr ["a.txt"])] ["/home/user/out"] [] in
  fs_readdir "out" (fs w) = inr ["a.txt"] /\
  (forall i : bool,
     fst (safeWipe (Dir "out") (Some (forced (Some i))) w)
       = Result (Promise (Rejected (Posix.EBUSY "rmdir" "out")))) /\
  fst (safeWipe (Dir "out") (Some (forced None)) w)
    = Result (Promise (Rejected (Posix.EBUSY "rmdir" "out"))) /\
  log (snd (safeWipe (Dir "out") (Some (forced None)) w))
    = [Readdir "out"; Rimraf "out";
       StreamWrite process_stderr (message (Posix.EBUSY "rmdir" "out") +:+ LF)].
Proof.
  split; [reflexivity|]. split; [intros []; reflexivity|].
  split; reflexivity.
Qed.

(** ** Every call is one of the runs *)

Section Runs_of_the_chain.
Context {FS : Type} `{!Platform FS}.
Implicit Types (dir : string) (config : config) (w : world FS).

Lemma events_refl w : events w w [].
Proof. unfold events. now rewrite app_nil_r. Qed.

Lemma events_unique w w' (evs1 evs2 : list event) :
  events w w' evs1 -> events w w' evs2 -> evs1 = evs2.
Proof. unfold events. intros E1 E2. rewrite E1 in E2. now apply app_inv_head in E2. Qed.

Lemma events_emit w w' (evs : list event) (ev : event) :
  events w w' evs -> events w (emit ev w') (evs ++ [ev]).
Proof. unfold events, emit. cbn [log]. intros ->. now rewrite app_assoc. Qed.

(** The chain of [safeWipeRaw] follows exactly one of the runs. *)
Lemma pipeline_gate_run dir config w :
  exists evs,
    gate_run dir config w
      (fst (pipeline dir config w)) (snd (pipeline dir config w)) evs.
Proof.
  destruct (contained dir config) eqn:C.
  { rewrite (pipeline_contained _ _ _ C). eexists. now apply run_contained. }
  rewrite (pipeline_checked _ _ _ C). unfold and_then.
  destruct (fs_readdir dir (fs w)) as [e|files] eqn:E.
  { destruct (is_enoent e) eqn:N.
    - rewrite (checkEmpty_missing _ _ _ _ E N). cbv beta iota. eexists.
      now apply (run_missing dir config w e).
    - rewrite (checkEmpty_fails _ _ _ _ E N). eexists.
      now apply (run_listing_failed dir config w e). }
  destruct (kept config files) as [|f fl] eqn:K.
  { rewrite (checkEmpty_empty _ _ _ _ E K). cbv beta iota. eexists.
    now apply (run_empty dir config w files). }
  assert (K' : kept config files <> []) by (rewrite K; discriminate).
  destruct (force config) eqn:F.
  { rewrite (checkEmpty_force _ _ _ _ E F). cbv beta iota. eexists.
    now apply (run_forced dir config w files). }
  destruct (interactive config) eqn:I.
  2:{ rewrite (checkEmpty_abort _ _ _ _ E K' F I). eexists.
      now apply (run_refused dir config w files). }
  destruct (lines w (stdin config)) as [|answer rest] eqn:L.
  { rewrite (checkEmpty_unanswered _ _ _ _ E K' F I L). eexists.
    now apply (run_waiting dir config w files). }
  rewrite (checkEmpty_answered _ _ _ _ answer rest E K' F I L).
  destruct (yes_test answer) eqn:Y; cbv beta iota.
  - eexists.
    now apply (run_confirmed dir config w files answer rest).
  - eexists. now apply (run_declined dir config w files answer rest).
Qed.
End Runs_of_the_chain.

Section Runs_of_the_call.
Context {FS : Type} `{!Platform FS}.
Implicit Types (dir : string) (config : config) (w : world FS).

Lemma rimraf_events dir w w1 (evs : list event) :
  events w w1 evs ->
  events w (snd (rimraf dir w1)) (evs ++ [Rimraf dir]).
Proof.
  unfold events. intros E. rewrite rimraf_run. cbn [snd log].
  rewrite E. now rewrite app_assoc.
Qed.

Lemma answered_events config answer rest w w1 (evs : list event) :
  events w w1 evs ->
  events w (answered config answer rest w1)
    (evs ++ [Question (stdin config) (stdout config) (msg config "confirm");
             Answer (stdin config) answer]).
Proof. unfold events, answered. cbn [log]. intros ->. now rewrite app_assoc. Qed.

(** The events of a run are what it adds to the log. *)
Lemma gate_run_events dir config w o w1 evs :
  gate_run dir config w o w1 evs -> events w w1 evs.
Proof.
  intros R. destruct R.
  - apply events_refl.
  - apply (events_emit w w [] (Readdir dir)), events_refl.
  - apply (rimraf_events dir w _ [Readdir dir]).
    apply (events_emit w w [] (Readdir dir)), events_refl.
  - apply (rimraf_events dir w _ [Readdir dir]).
    apply (events_emit w w [] (Readdir dir)), events_refl.
  - apply (rimraf_events dir w _ [Readdir dir]).
    apply (events_emit w w [] (Readdir dir)), events_refl.
  - apply (events_emit w w [] (Readdir dir)), events_refl.
  - apply (events_emit w _ [Readdir dir]).
    apply (events_emit w w [] (Readdir dir)), events_refl.
  - apply (rimraf_events dir w _ [Readdir dir; Question _ _ _; Answer _ _]).
    apply (answered_events config answer rest w _ [Readdir dir]).
    apply (events_emit w w [] (Readdir dir)), events_refl.
  - apply (answered_events config answer rest w _ [Readdir dir]).
    apply (events_emit w w [] (Readdir dir)), events_refl.
Qed.

(** [safeWipeRaw] is the run of its chain, followed by the echo. *)
Lemma safeWipeRaw_gate_run dir config w :
  exists w1 evs,
    gate_run dir config w (fst (safeWipeRaw dir config w)) w1 evs /\
    pipeline dir config w = (fst (safeWipeRaw dir config w), w1) /\
    events w (snd (safeWipeRaw dir config w))
           (evs ++ echo config (fst (safeWipeRaw dir config w))) /\
    fs (snd (safeWipeRaw dir config w)) = fs w1 /\
    lines (snd (safeWipeRaw dir config w)) = lines w1.
Proof.
  destruct (pipeline_gate_run dir config w) as [evs R].
  destruct (pipeline dir config w) as [o w1] eqn:P. cbn [fst snd] in R.
  pose proof (gate_run_events _ _ _ _ _ _ R) as Ev.
  exists w1, evs. destruct o as [[]|e|].
  - rewrite (safeWipeRaw_fulfilled _ _ _ _ P). cbn [fst snd echo].
    rewrite app_nil_r. auto.
  - rewrite (safeWipeRaw_rejected _ _ _ _ _ P). cbn [fst snd echo].
    destruct (silent config).
    + rewrite app_nil_r. auto.
    + repeat split; auto. now apply events_emit.
  - rewrite (safeWipeRaw_pending _ _ _ _ P). cbn [fst snd echo].
    rewrite app_nil_r. auto.
Qed.

Lemma is_enoent_code (e : error) :
  is_enoent e = true <-> code e = Some "ENOENT".
Proof.
  unfold is_enoent. destruct (code e) as [c|]; [|split; discriminate].
  destruct (String.eqb_spec c "ENOENT") as [->|N]; split; congruence.
Qed.

(** Ignored entries do not count. *)
Lemma kept_nil config (files : list string) :
  (forall f, In f files -> In f (ignore config)) -> kept config files = [].
Proof.
  unfold kept. induction files as [|f files IH]; intros A; [reflexivity|].
  rewrite filter_cons. destruct (decide _) as [D|D].
  - apply array_indexOf_absent in D. exfalso. apply D, A. now left.
  - apply IH. intros g G. apply A. now right.
Qed.

Lemma kept_cons config (files : list string) (f : string) :
  In f files -> ~ In f (ignore config) -> kept config files <> [].
Proof.
  unfold kept. induction files as [|g files IH]; intros I N; [destruct I|].
  rewrite filter_cons. destruct (decide _) as [D|D]; [discriminate|].
  destruct I as [->|I]; [|now apply IH].
  exfalso. apply D. now apply array_indexOf_absent.
Qed.
End Runs_of_the_call.

(** ** Effectively empty directories *)

(** C5, as the code has it: for every directory D that does not exist
    (its listing fails with code ENOENT) or whose entries all have names
    in the configured ignore list, and every configuration that the
    containment check lets through, the call goes from the listing
    straight to the external delete and no question is put; the call
    settles as that delete does: it succeeds when the delete succeeds,
    and when the delete fails it fails with the delete's error, echoed
    on the error stream unless [silent] is on. *)
Theorem C5_effectively_empty {FS : Type} `{!Platform FS}
    (dir : string) (c : option options) (w : world FS) :
  (exists e, fs_readdir dir (fs w) = inl e /\ code e = Some "ENOENT") \/
  (exists files, fs_readdir dir (fs w) = inr files /\
                 forall f, In f files -> In f (ignore (defaults c))) ->
  contained dir (defaults c) = false ->
  safeWipe (Dir dir) c w =
    match fst (fs_rimraf dir (fs w)) with
    | None =>
        (Result (Promise (Fulfilled tt)),
         World (snd (fs_rimraf dir (fs w))) (lines w)
               (log w ++ [Readdir dir; Rimraf dir])%list)
    | Some e =>
        (Result (Promise (Rejected e)),
         World (snd (fs_rimraf dir (fs w))) (lines w)
               (log w ++ [Readdir dir; Rimraf dir]
                      ++ (if silent (defaults c) then []
                          else [StreamWrite (stderr (defaults c))
                                            (message e +:+ LF)]))%list)
    end.
Proof.
  intros D C. unfold safeWipe.
  set (config := defaults c) in *.
  assert (G : checkEmpty dir config w = (Fulfilled tt, emit (Readdir dir) w)).
  { destruct D as [(e & E & N)|(files & E & A)].
    - apply (checkEmpty_missing _ _ _ e E). now apply is_enoent_code.
    - apply (checkEmpty_empty _ _ _ files E). now apply kept_nil. }
  rewrite (unasked_call dir config w C G).
  destruct (fst (fs_rimraf dir (fs w))); reflexivity.
Qed.

(** [out] holds nothing but the two default ignored names. *)
Lemma C5_effectively_empty_witness :
  let w := Posix.start [("/home/user/out", inr ["Thumbs.db"; ".DS_Store"])] [] [] in
  ((exists e, fs_readdir "out" (fs w) = inl e /\ code e = Some "ENOENT") \/
   (exists files, fs_readdir "out" (fs w) = inr files /\
                  forall f, In f files -> In f (ignore (defaults None)))) /\
  contained "out" (defaults None) = false /\
  safeWipe (Dir "out") None w =
    (Result (Promise (Fulfilled tt)),
     World (Posix.MemFs ∅ []) (lines w) (log w ++ [Readdir "out"; Rimraf "out"])).
Proof.
  intros w.
  assert (D : (exists e, fs_readdir "out" (fs w) = inl e /\ code e = Some "ENOENT") \/
              (exists files, fs_readdir "out" (fs w) = inr files /\
                 forall f, In f files -> In f (ignore (defaults None)))).
  { right. exists ["Thumbs.db"; ".DS_Store"]. split; [reflexivity|].
    intros f [<-|[<-|[]]]; simpl; auto. }
  split; [exact D|]. split; [reflexivity|].
  exact (C5_effectively_empty "out" None w D eq_refl).
Defined.

(** C5 as stated fails in two ways. For a configuration that names a
    parent below the directory, the call on a directory that does not
    exist is rejected as CONTAINED before anything is listed. And when
    the external delete fails, the call on a directory holding only an
    ignored name, which is busy, fails with the delete's error, though
    unasked. *)
Lemma C5_contained_counterexample :
  let w := Posix.start [] [] [] in
  let c := Some (parent_only "/home/user/out/src") in
  let v := Posix.start [("/home/user/out", inr ["Thumbs.db"])]
                       ["/home/user/out"] [] in
  (fs_readdir "/home/user/out" (fs w)
     = inl (Posix.ENOENT "scandir" "/home/user/out") /\
   code (Posix.ENOENT "scandir" "/home/user/out") = Some "ENOENT" /\
   safeWipe (Dir "/home/user/out") c w =
     (Result (Promise (Rejected
        (createError (msg (defaults c) "contained") "CONTAINED"))),
      emit (StreamWrite process_stderr (msg (defaults c) "contained" +:+ LF)) w)) /\
  (fs_readdir "out" (fs v) = inr ["Thumbs.db"] /\
   In "Thumbs.db" (ignore (defaults None)) /\
   fst (safeWipe (Dir "out") None v)
     = Result (Promise (Rejected (Posix.EBUSY "rmdir" "out"))) /\
   log (snd (safeWipe (Dir "out") None v))
     = [Readdir "out"; Rimraf "out";
        StreamWrite process_stderr (message (Posix.EBUSY "rmdir" "out") +:+ LF)]).
Proof. vm_compute. repeat split. right; left; reflexivity. Qed.

(** ** The confirmation gate *)

Section Gate.
Context {FS : Type} `{!Platform FS}.
Implicit Types (dir : string) (c : option options) (w : world FS).

(** The echo is at most one write on the error stream. *)
Lemma echo_only_writes (config : config) (o : outcome unit) (ev : event) :
  In ev (echo config o) ->
  exists e, o = Rejected e /\ silent config = false /\
            ev = StreamWrite (stderr config) (message e +:+ LF).
Proof.
  destruct o as [a|e|]; cbn [echo]; [intros []| |intros []].
  destruct (silent config); [intros []|].
  intros [<-|[]]. now exists e.
Qed.

Lemma echo_no_question (config : config) (o : outcome unit) :
  List.filter is_question (echo config o) = [].
Proof.
  destruct o as [a|e|]; cbn [echo]; try reflexivity.
  destruct (silent config); reflexivity.
Qed.

(** A call in which a line was read went through the gate: the question
    was put once, on the configured streams, and the line decided. *)
Lemma answered_call dir c w (input : stream) (answer : string)
    (evs : list event) :
  events w (snd (safeWipe (Dir dir) c w)) evs ->
  In (Answer input answer) evs ->
  input = stdin (defaults c) /\
  length (List.filter is_question evs) = 1%nat /\
  (yes_test answer = true -> In (Rimraf dir) evs) /\
  (yes_test answer = false ->
     fst (safeWipe (Dir dir) c w) = Result (Promise (Rejected (abort (defaults c)))) /\
     forall d, ~ In (Rimraf d) evs).
Proof.
  unfold safeWipe.
  destruct (safeWipeRaw_gate_run dir (defaults c) w) as (w1 & evs1 & R & _ & Ev & _).
  destruct (safeWipeRaw dir (defaults c) w) as [o w'] eqn:S.
  cbn [fst snd] in *. intros Ev' A.
  rewrite (events_unique _ _ _ _ Ev' Ev) in *. clear Ev' Ev.
  apply in_app_or in A as [A|A];
    [|apply echo_only_writes in A as (e & _ & _ & A); discriminate A].
  rewrite List.filter_app, echo_no_question, app_nil_r.
  inversion R; subst evs1; cbn in A; try (intuition discriminate).
  - (* confirmed *)
    destruct A as [A|[A|[A|[A|[]]]]]; try discriminate A.
    injection A as <- <-.
    split; [reflexivity|]. split; [reflexivity|]. split.
    + intros _. apply in_or_app. left. cbn. tauto.
    + congruence.
  - (* declined *)
    destruct A as [A|[A|[A|[]]]]; try discriminate A.
    injection A as <- <-.
    split; [reflexivity|]. split; [reflexivity|]. split; [congruence|].
    intros _. split; [subst o; reflexivity|].
    intros d [D|D]%in_app_or.
    + cbn in D. intuition discriminate.
    + apply echo_only_writes in D as (e & _ & _ & D). discriminate D.
Qed.
End Gate.



(** C10: for every answer whose first character is [y] or [Y], whatever
    follows, the affirmative test [/^y(es)?/i] accepts it and the call
    goes on to the external delete. *)
Theorem C10_leading_y_proceeds {FS : Type} `{!Platform FS}
    (dir : string) (c : option options) (w : world FS)
    (input : stream) (ch : ascii) (rest : string) (evs : list event) :
  events w (snd (safeWipe (Dir dir) c w)) evs ->
  In (Answer input (String ch rest)) evs ->
  ch = "y"%char \/ ch = "Y"%char ->
  yes_test (String ch rest) = true /\ In (Rimraf dir) evs.
Proof.
  intros Ev A Y.
  assert (T : yes_test (String ch rest) = true).
  { rewrite yes_test_first_char. destruct Y as [->| ->]; reflexivity. }
  split; [exact T|].
  now apply (answered_call dir c w input (String ch rest) evs Ev A).
Qed.

(** [out] holds [a.txt] and the operator answers [ynot]. *)
Lemma C10_leading_y_proceeds_witness :
  let w := Posix.start [("/home/user/out", inr ["a.txt"])] [] ["ynot"] in
  let evs := [Readdir "out";
              Question process_stdin process_stdout (msg (defaults None) "confirm");
              Answer process_stdin "ynot";
              Rimraf "out"] in
  events w (snd (safeWipe (Dir "out") None w)) evs /\
  In (Answer process_stdin "ynot") evs /\
  ("y"%char = "y"%char \/ "y"%char = "Y"%char) /\
  yes_test "ynot" = true /\ In (Rimraf "out") evs.
Proof.
  intros w evs.
  assert (Ev : events w (snd (safeWipe (Dir "out") None w)) evs) by reflexivity.
  assert (A : In (Answer process_stdin "ynot") evs) by (cbn; tauto).
  split; [exact Ev|]. split; [exact A|]. split; [left; reflexivity|].
  exact (C10_leading_y_proceeds "out" None w process_stdin "y"%char "not" evs
           Ev A (or_introl eq_refl)).
Defined.

(** ** Failures *)

Lemma gate_run_no_write {FS : Type} `{!Platform FS}
    (dir : string) (config : config) (w : world FS)
    (o : outcome unit) (w1 : world FS) (evs : list event) :
  gate_run dir config w o w1 evs -> List.filter is_write evs = [].
Proof. intros R. destruct R; reflexivity. Qed.

(** C7: for every failing call, the failure is the one the chain of
    checks ended with, and the chain itself wrote to no stream; with
    [silent] false the message of the failure followed by a line break is
    written to the error stream as the last thing the call does, and the
    same failure is signalled; with [silent] true the same failure is
    signalled and nothing is written. *)
Theorem C7_failure_echo {FS : Type} `{!Platform FS}
    (dir : string) (c : option options) (w : world FS) (e : error) :
  fst (safeWipe (Dir dir) c w) = Result (Promise (Rejected e)) ->
  exists w1 evs,
    pipeline dir (defaults c) w = (Rejected e, w1) /\
    events w w1 evs /\
    List.filter is_write evs = [] /\
    snd (safeWipe (Dir dir) c w) =
      if silent (defaults c) then w1
      else emit (StreamWrite (stderr (defaults c)) (message e +:+ LF)) w1.
Proof.
  unfold safeWipe. intros F.
  destruct (pipeline_gate_run dir (defaults c) w) as [evs R].
  destruct (pipeline dir (defaults c) w) as [o w1] eqn:P. cbn [fst snd] in R.
  destruct o as [[]|e'|].
  - rewrite (safeWipeRaw_fulfilled _ _ _ _ P) in F. discriminate F.
  - rewrite (safeWipeRaw_rejected _ _ _ _ _ P) in F |- *.
    cbn [fst snd] in F |- *. injection F as ->.
    exists w1, evs. split; [reflexivity|].
    split; [exact (gate_run_events _ _ _ _ _ _ R)|].
    split; [exact (gate_run_no_write _ _ _ _ _ _ R)|reflexivity].
  - rewrite (safeWipeRaw_pending _ _ _ _ P) in F. discriminate F.
Qed.

(** [out] holds [a.txt], the operator answers [n], [silent] is off. *)
Lemma C7_failure_echo_witness :
  let w := Posix.start [("/home/user/out", inr ["a.txt"])] [] ["n"] in
  let e := createError (msg (defaults None) "abort") "ABORT" in
  fst (safeWipe (Dir "out") None w) = Result (Promise (Rejected e)) /\
  exists w1 evs,
    pipeline "out" (defaults None) w = (Rejected e, w1) /\
    events w w1 evs /\
    List.filter is_write evs = [] /\
    snd (safeWipe (Dir "out") None w) =
      if silent (defaults None) then w1
      else emit (StreamWrite (stderr (defaults None)) (message e +:+ LF)) w1.
Proof.
  intros w e.
  assert (F : fst (safeWipe (Dir "out") None w) = Result (Promise (Rejected e)))
    by reflexivity.
  split; [exact F|].
  exact (C7_failure_echo "out" None w e F).
Defined.

(** C8: for every listing failure whose code is not ENOENT, the
    emptiness check fails with that very error after the one listing;
    in the call, no question is put and the external delete is not
    invoked, and once the listing was attempted the call fails with that
    error, unlabelled as it came. *)
Theorem C8_listing_failure_propagates {FS : Type} `{!Platform FS}
    (dir : string) (c : option options) (w : world FS) (e : error) :
  fs_readdir dir (fs w) = inl e ->
  code e <> Some "ENOENT" ->
  isEmpty dir (defaults c) w = (Rejected e, emit (Readdir dir) w) /\
  checkEmpty dir (defaults c) w = (Rejected e, emit (Readdir dir) w) /\
  forall evs,
    events w (snd (safeWipe (Dir dir) c w)) evs ->
    (forall ev, In ev evs -> is_question ev = false /\ is_rimraf ev = false) /\
    (In (Readdir dir) evs ->
       fst (safeWipe (Dir dir) c w) = Result (Promise (Rejected e))).
Proof.
  intros E N.
  assert (N' : is_enoent e = false).
  { destruct (is_enoent e) eqn:X; [|reflexivity].
    apply is_enoent_code in X. contradiction. }
  split; [exact (isEmpty_fails _ _ _ _ E N')|].
  split; [exact (checkEmpty_fails _ _ _ _ E N')|].
  unfold safeWipe. intros evs Ev'.
  destruct (safeWipeRaw_gate_run dir (defaults c) w) as (w1 & evs1 & R & _ & Ev & _).
  destruct (safeWipeRaw dir (defaults c) w) as [o w'] eqn:S.
  cbn [fst snd] in *.
  rewrite (events_unique _ _ _ _ Ev' Ev) in *. clear Ev' Ev.
  inversion R; subst evs1; try congruence.
  - (* contained: nothing was listed *)
    split.
    + intros ev [[]|I]%in_app_or.
      apply echo_only_writes in I as (x & _ & _ & ->). split; reflexivity.
    + intros [[]|I]%in_app_or.
      apply echo_only_writes in I as (x & _ & _ & I). discriminate I.
  - (* the listing failed *)
    assert (e0 = e) by congruence. subst e0. split; [|subst o; reflexivity].
    intros ev [I|I]%in_app_or.
    + destruct I as [<-|[]]. split; reflexivity.
    + apply echo_only_writes in I as (x & _ & _ & ->). split; reflexivity.
Qed.

(** [vault] cannot be listed: permission denied. *)
Lemma C8_listing_failure_propagates_witness :
  let e := Posix.EACCES "scandir" "vault" in
  let w := Posix.start [("/home/user/vault", inl e)] [] ["y"] in
  fs_readdir "vault" (fs w) = inl e /\
  code e <> Some "ENOENT" /\
  isEmpty "vault" (defaults None) w = (Rejected e, emit (Readdir "vault") w) /\
  checkEmpty "vault" (defaults None) w = (Rejected e, emit (Readdir "vault") w) /\
  forall evs,
    events w (snd (safeWipe (Dir "vault") None w)) evs ->
    (forall ev, In ev evs -> is_question ev = false /\ is_rimraf ev = false) /\
    (In (Readdir "vault") evs ->
       fst (safeWipe (Dir "vault") None w) = Result (Promise (Rejected e))).
Proof.
  intros e w.
  assert (E : fs_readdir "vault" (fs w) = inl e) by reflexivity.
  assert (N : code e <> Some "ENOENT") by discriminate.
  split; [exact E|]. split; [exact N|].
  exact (C8_listing_failure_propagates "vault" None w e E N).
Defined.

(** ** Streams *)

Lemma gate_run_streams {FS : Type} `{!Platform FS}
    (dir : string) (config : config) (w : world FS)
    (o : outcome unit) (w1 : world FS) (evs : list event) (ev : event) :
  gate_run dir config w o w1 evs -> In ev evs ->
  match ev with
  | Question i out q =>
      i = stdin config /\ out = stdout config /\ q = msg config "confirm"
  | Answer i _ => i = stdin config
  | StreamWrite _ _ => False
  | _ => True
  end.
Proof.
  intros R I. destruct R; cbn in I;
    repeat (destruct I as [<-|I]; [now auto|]); destruct I.
Qed.

(** C9, as the code has it: for every call, the streams used are the ones
    supplied under the keys [stdin], [stdout] and [stderr] (the process
    streams where a key is left out): the question is put on that input
    and output pair with the [confirm] text, the answer is read from that
    input, failure messages are written to that error stream; and
    properties under any other name change nothing. *)
Theorem C9_streams_used {FS : Type} `{!Platform FS}
    (dir : string) (o : options) (w : world FS) (evs : list event) :
  events w (snd (safeWipe (Dir dir) (Some o) w)) evs ->
  (forall ev, In ev evs ->
     match ev with
     | Question i out q =>
         i = default process_stdin (o_stdin o) /\
         out = default process_stdout (o_stdout o) /\
         q = msg (defaults (Some o)) "confirm"
     | Answer i _ => i = default process_stdin (o_stdin o)
     | StreamWrite s _ => s = default process_stderr (o_stderr o)
     | _ => True
     end) /\
  (forall x : gmap string jsval,
     safeWipe (Dir dir) (Some (with_extra o x)) w
     = safeWipe (Dir dir) (Some o) w).
Proof.
  intros Ev'. split; [|reflexivity].
  revert Ev'. unfold safeWipe.
  destruct (safeWipeRaw_gate_run dir (defaults (Some o)) w)
    as (w1 & evs1 & R & _ & Ev & _).
  destruct (safeWipeRaw dir (defaults (Some o)) w) as [r w'] eqn:S.
  cbn [fst snd] in *. intros Ev'.
  rewrite (events_unique _ _ _ _ Ev' Ev) in *. clear Ev' Ev.
  intros ev [I|I]%in_app_or.
  - pose proof (gate_run_streams _ _ _ _ _ _ _ R I) as G.
    destruct ev; try exact I; try exact G. destruct G.
  - apply echo_only_writes in I as (x & _ & _ & ->). reflexivity.
Qed.

(** Three streams of the caller under [stdin], [stdout], [stderr]. *)
Lemma C9_streams_used_witness :
  let w := two_keyboards ["n"] ["y"] in
  let evs := [Readdir "out";
              Question (Handle 1) (Handle 2) (msg (defaults None) "confirm");
              Answer (Handle 1) "n";
              StreamWrite (Handle 3) (msg (defaults None) "abort" +:+ LF)] in
  events w (snd (safeWipe (Dir "out") (Some own_streams) w)) evs /\
  (forall ev, In ev evs ->
     match ev with
     | Question i out q =>
         i = Handle 1 /\ out = Handle 2 /\
         q = msg (defaults (Some own_streams)) "confirm"
     | Answer i _ => i = Handle 1
     | StreamWrite s _ => s = Handle 3
     | _ => True
     end) /\
  (forall x : gmap string jsval,
     safeWipe (Dir "out") (Some (with_extra own_streams x)) w
     = safeWipe (Dir "out") (Some own_streams) w).
Proof.
  intros w evs.
  assert (Ev : events w (snd (safeWipe (Dir "out") (Some own_streams) w)) evs)
    by reflexivity.
  split; [exact Ev|].
  exact (C9_streams_used "out" own_streams w evs Ev).
Defined.

(** C9 as stated fails: streams supplied under [input], [output] and
    [error] are never used. The operator's [y] on the supplied input is
    not read; the question goes to the standard output of the process,
    the [n] typed on its standard input decides, and the failure is
    written to its standard error. *)
Lemma C9_renamed_streams_counterexample :
  let w := two_keyboards ["y"] ["n"] in
  o_extra renamed_streams !! "input" = Some (JStream (Handle 1)) /\
  o_extra renamed_streams !! "output" = Some (JStream (Handle 2)) /\
  o_extra renamed_streams !! "error" = Some (JStream (Handle 3)) /\
  fst (safeWipe (Dir "out") (Some renamed_streams) w)
    = Result (Promise (Rejected
        (createError (msg (defaults (Some renamed_streams)) "abort") "ABORT"))) /\
  log (snd (safeWipe (Dir "out") (Some renamed_streams) w))
    = [Readdir "out";
       Question process_stdin process_stdout
         (msg (defaults (Some renamed_streams)) "confirm");
       Answer process_stdin "n";
       StreamWrite process_stderr
         (msg (defaults (Some renamed_streams)) "abort" +:+ LF)].
Proof. vm_compute. repeat split. Qed.

(** ** The bound function *)

(** C3 against the code: a call with a configuration object alone
    returns a function, and a call of that function on a directory does
    to the world what a direct call with that configuration does, but
    returns [undefined], not the outcome of that call; a configuration
    passed with the directory is dropped. *)
Theorem C3_bound_function_returns_undefined {FS : Type} `{!Platform FS}
    (o : options) (c : option options) (w0 : world FS) :
  exists f : wiper FS,
    safeWipe (Obj o) c w0 = (Function f, w0) /\
    forall (dir : string) (inner : option options) (w : world FS),
      fst (f dir inner w) = Undefined /\
      snd (f dir inner w) = snd (safeWipe (Dir dir) (Some o) w) /\
      fst (safeWipe (Dir dir) (Some o) w) <> Result (fst (f dir inner w)) /\
      f dir inner w = f dir None w.
Proof.
  exists (safeWipeNew (Some o)). split; [reflexivity|].
  intros dir inner w. unfold safeWipeNew, safeWipe.
  destruct (safeWipeRaw dir (defaults (Some o)) w) as [r w']. cbn [fst snd].
  repeat split. discriminate.
Qed.

(** The README's bound function on two non-empty directories, the second
    call with [{force: true}]: both return [undefined]; the refusals only
    show on the error stream, and nothing is deleted. *)
Example bound_function_readme :
  let w := Posix.start [("/home/user/some-directory", inr ["a.txt"]);
                        ("/home/user/another-directory", inr ["b.txt"])] [] [] in
  exists f,
    safeWipe (Obj not_interactive) None w = (Function f, w) /\
    fst (f "some-directory" None w) = Undefined /\
    let w1 := snd (f "some-directory" None w) in
    fst (f "another-directory" (Some (forced None)) w1) = Undefined /\
    log (snd (f "another-directory" (Some (forced None)) w1))
    = [Readdir "some-directory";
       StreamWrite process_stderr (msg (defaults None) "abort" +:+ LF);
       Readdir "another-directory";
       StreamWrite process_stderr (msg (defaults None) "abort" +:+ LF)] /\
    fs (snd (f "another-directory" (Some (forced None)) w1)) = fs w.
Proof. eexists. split; [reflexivity|]. vm_compute. repeat split. Qed.

(** * Further properties of the code *)

(** ** [defaults] *)

(** X1: whatever the caller passes, the resolved [messages] holds the
    three keys [contained], [confirm] and [abort]; under every key the
    caller's text wins where there is one and the built-in text stays
    where there is none, so a partial [messages] object replaces only
    the keys it names. *)
Theorem X1_messages_resolved (c : option options) :
  (forall key : string,
     messages (defaults c) !! key =
       match default ∅ (o_messages (default no_options c)) !! key with
       | Some m => Some m
       | None => default_messages !! key
       end) /\
  is_Some (messages (defaults c) !! "contained") /\
  is_Some (messages (defaults c) !! "confirm") /\
  is_Some (messages (defaults c) !! "abort").
Proof.
  assert (G : forall key : string,
     messages (defaults c) !! key =
       match default ∅ (o_messages (default no_options c)) !! key with
       | Some m => Some m
       | None => default_messages !! key
       end).
  { intros key. unfold defaults, extend. cbn [messages].
    rewrite lookup_union.
    destruct (default ∅ (o_messages (default no_options c)) !! key);
      destruct (default_messages !! key); reflexivity. }
  split; [exact G|].
  repeat split; rewrite G;
    destruct (default ∅ (o_messages (default no_options c)) !! _);
    try (eexists; reflexivity).
Qed.

(** ** [isParent] *)

Lemma string_prefix_append (a b : string) :
  String.prefix a b = true <-> exists s, b = a +:+ s.
Proof.
  revert b. induction a as [|x a IH]; intros b.
  - split; [intros _; now exists b|]. intros _. now destruct b.
  - destruct b as [|y b]; cbn [String.prefix].
    + split; [discriminate|]. intros [s E]. discriminate E.
    + destruct (ascii_dec x y) as [->|N].
      * rewrite IH. split; intros [s E]; exists s.
        -- cbn. now rewrite E.
        -- cbn in E. now injection E.
      * split; [discriminate|]. intros [s E]. cbn in E. injection E as E _.
        congruence.
Qed.

Lemma string_append_empty (r : string) : r +:+ "" = r.
Proof.
  induction r as [|x r IH]; [reflexivity|].
  change (String x r +:+ "") with (String x (r +:+ "")). now rewrite IH.
Qed.

Lemma string_append_assoc (r t s : string) : (r +:+ t) +:+ s = r +:+ (t +:+ s).
Proof.
  induction r as [|x r IH]; [reflexivity|].
  change (String x (r +:+ t) +:+ s = String x (r +:+ (t +:+ s))).
  change (String x ((r +:+ t) +:+ s) = String x (r +:+ (t +:+ s))).
  now rewrite IH.
Qed.

(** X2: [isParent(p, dir)] holds exactly when the resolved [p] is the
    resolved [dir] followed by any text at all, a path separator or not;
    so every path is a parent of itself, and the relation is
    transitive. *)
Theorem X2_isParent_textual {FS : Type} `{!Platform FS} (p dir : string) :
  (isParent p dir = true <->
   exists s, path_resolve p = path_resolve dir +:+ s) /\
  isParent dir dir = true /\
  (forall q, isParent p q = true -> isParent q dir = true ->
             isParent p dir = true).
Proof.
  split; [|split].
  - rewrite isParent_prefix. apply string_prefix_append.
  - rewrite isParent_prefix. apply string_prefix_append. exists "".
    now rewrite string_append_empty.
  - intros q. rewrite !isParent_prefix, !string_prefix_append.
    intros [s ->] [t ->]. exists (t +:+ s). apply string_append_assoc.
Qed.

(** ** [isEmpty] *)

Lemma kept_In (config : config) (files : list string) (f : string) :
  In f (kept config files) <-> In f files /\ ~ In f (ignore config).
Proof.
  unfold kept. induction files as [|g files IH]; [cbn; tauto|].
  rewrite filter_cons. destruct (decide _) as [D|D].
  - apply array_indexOf_absent in D. cbn [In]. rewrite IH.
    split; [intros [<-|[I N]]; auto|intros [[<-|I] N]; auto].
  - rewrite IH. cbn [In]. split; [intros [I N]; auto|].
    intros [[<-|I] N]; [|auto]. exfalso. apply D. now apply array_indexOf_absent.
Qed.

Lemma kept_empty (config : config) (files : list string) :
  kept config files = [] <-> forall f, In f files -> In f (ignore config).
Proof.
  split; [|apply kept_nil].
  intros K f I. destruct (in_dec String.string_dec f (ignore config)) as [Y|N];
    [exact Y|].
  assert (X : In f (kept config files)) by (apply kept_In; auto).
  rewrite K in X. destruct X.
Qed.

(** X3: [isEmpty] lists the directory once and does nothing else. It
    says [true] exactly when the directory is missing (the listing fails
    with code ENOENT) or every entry is named in [ignore]; [false]
    exactly when some entry is not; it fails exactly with the listing's
    own error when that has another code or none; it always settles. *)
Theorem X3_isEmpty_verdict {FS : Type} `{!Platform FS}
    (dir : string) (config : config) (w : world FS) :
  snd (isEmpty dir config w) = emit (Readdir dir) w /\
  (fst (isEmpty dir config w) = Fulfilled true <->
     (exists e, fs_readdir dir (fs w) = inl e /\ code e = Some "ENOENT") \/
     (exists files, fs_readdir dir (fs w) = inr files /\
                    forall f, In f files -> In f (ignore config))) /\
  (fst (isEmpty dir config w) = Fulfilled false <->
     exists files f, fs_readdir dir (fs w) = inr files /\
                     In f files /\ ~ In f (ignore config)) /\
  (forall e, fst (isEmpty dir config w) = Rejected e <->
     fs_readdir dir (fs w) = inl e /\ code e <> Some "ENOENT") /\
  fst (isEmpty dir config w) <> Pending.
Proof.
  destruct (fs_readdir dir (fs w)) as [e|files] eqn:E.
  - destruct (is_enoent e) eqn:N.
    + rewrite (isEmpty_missing _ _ _ _ E N). cbn [fst snd].
      apply is_enoent_code in N.
      split; [reflexivity|]. split; [|split; [|split]].
      * split; [intros _; left; now exists e|reflexivity].
      * split; [discriminate|]. intros (files & f & X & _). discriminate X.
      * intros e'. split; [discriminate|]. intros [X Y]. congruence.
      * discriminate.
    + rewrite (isEmpty_fails _ _ _ _ E N). cbn [fst snd].
      assert (N' : code e <> Some "ENOENT").
      { intros X. apply is_enoent_code in X. congruence. }
      split; [reflexivity|]. split; [|split; [|split]].
      * split; [discriminate|].
        intros [(e' & X & Y)|(files & X & _)]; congruence.
      * split; [discriminate|]. intros (files & f & X & _). discriminate X.
      * intros e'. split; [intros [= <-]; auto|]. intros [[= <-] _]. reflexivity.
      * discriminate.
  - rewrite (isEmpty_listed _ _ _ _ E). cbn [fst snd].
    split; [reflexivity|]. split; [|split; [|split]].
    + destruct (kept config files) as [|g l] eqn:K.
      * split; [|reflexivity]. intros _. right. exists files.
        split; [reflexivity|]. now apply kept_empty.
      * split; [discriminate|].
        intros [(e & X & _)|(files' & [= <-] & A)]; [discriminate X|].
        apply kept_empty in A. congruence.
    + destruct (kept config files) as [|g l] eqn:K.
      * split; [discriminate|]. intros (files' & f & [= <-] & I & N).
        assert (X : In f (kept config files)) by (apply kept_In; auto).
        rewrite K in X. destruct X.
      * split; [|reflexivity]. intros _. exists files, g.
        split; [reflexivity|]. apply kept_In. rewrite K. now left.
    + intros e. destruct (kept config files); split;
        try discriminate; intros [X _]; discriminate X.
    + destruct (kept config files); discriminate.
Qed.

(** ** The order of effects in a call *)

Section Effects.
Context {FS : Type} `{!Platform FS}.
Implicit Types (dir : string) (config : config) (w : world FS).

Lemma rimraf_outcome dir w :
  fst (rimraf dir w) =
    match fst (fs_rimraf dir (fs w)) with
    | None => Fulfilled tt
    | Some e => Rejected e
    end.
Proof. now rewrite rimraf_run. Qed.

Lemma rimraf_world dir w :
  fs (snd (rimraf dir w)) = snd (fs_rimraf dir (fs w)) /\
  lines (snd (rimraf dir w)) = lines w.
Proof. now rewrite rimraf_run. Qed.

(** The call is the run, then the echo, and returns the run's outcome. *)
Lemma safeWipe_run dir c w (evs : list event) :
  events w (snd (safeWipe (Dir dir) c w)) evs ->
  exists o w1 core,
    gate_run dir (defaults c) w o w1 core /\
    fst (safeWipe (Dir dir) c w) = Result (Promise o) /\
    o = fst (safeWipeRaw dir (defaults c) w) /\
    evs = (core ++ echo (defaults c) o)%list /\
    fs (snd (safeWipe (Dir dir) c w)) = fs w1 /\
    lines (snd (safeWipe (Dir dir) c w)) = lines w1.
Proof.
  unfold safeWipe.
  destruct (safeWipeRaw_gate_run dir (defaults c) w)
    as (w1 & core & R & _ & Ev & F & L).
  destruct (safeWipeRaw dir (defaults c) w) as [o w'] eqn:S.
  cbn [fst snd] in *. intros Ev'.
  exists o, w1, core. repeat split; auto.
  exact (events_unique _ _ _ _ Ev' Ev).
Qed.
End Effects.

(** X4: the effects of a call come in one order only: nothing at all
    when the target is contained; otherwise the listing of the
    directory, then possibly the question, then possibly the answer,
    then possibly the delete, the delete following the listing directly
    or an answer; the only thing after that is the echo of a failure on
    the error stream. *)
Theorem X4_order_of_effects {FS : Type} `{!Platform FS}
    (dir : string) (c : option options) (w : world FS) (evs : list event) :
  events w (snd (safeWipe (Dir dir) c w)) evs ->
  exists core,
    evs = (core ++ echo (defaults c) (fst (safeWipeRaw dir (defaults c) w)))%list /\
    (core = [] <-> contained dir (defaults c) = true) /\
    (core = [] \/
     core = [Readdir dir] \/
     core = [Readdir dir; Rimraf dir] \/
     core = [Readdir dir; question (defaults c)] \/
     exists answer,
       core = [Readdir dir; question (defaults c);
               Answer (stdin (defaults c)) answer] \/
       core = [Readdir dir; question (defaults c);
               Answer (stdin (defaults c)) answer; Rimraf dir]).
Proof.
  intros Ev.
  destruct (safeWipe_run dir c w evs Ev) as (o & w1 & core & R & _ & -> & -> & _).
  exists core. split; [reflexivity|]. unfold question.
  destruct R; (split; [split; [try discriminate; auto|try congruence; auto]|]);
    auto 6; right; right; right; right; exists answer; auto.
Qed.

(** [out] holds [a.txt] and the operator answers [no]. *)
Lemma X4_order_of_effects_witness :
  let w := Posix.start [("/home/user/out", inr ["a.txt"])] [] ["no"] in
  let evs := [Readdir "out"; question (defaults None);
              Answer process_stdin "no";
              StreamWrite process_stderr (msg (defaults None) "abort" +:+ LF)] in
  events w (snd (safeWipe (Dir "out") None w)) evs /\
  exists core,
    evs = (core ++ echo (defaults None) (fst (safeWipeRaw "out" (defaults None) w)))%list /\
    (core = [] <-> contained "out" (defaults None) = true) /\
    (core = [] \/
     core = [Readdir "out"] \/
     core = [Readdir "out"; Rimraf "out"] \/
     core = [Readdir "out"; question (defaults None)] \/
     exists answer,
       core = [Readdir "out"; question (defaults None);
               Answer (stdin (defaults None)) answer] \/
       core = [Readdir "out"; question (defaults None);
               Answer (stdin (defaults None)) answer; Rimraf "out"]).
Proof.
  intros w evs.
  assert (Ev : events w (snd (safeWipe (Dir "out") None w)) evs) by reflexivity.
  split; [exact Ev|].
  exact (X4_order_of_effects "out" None w evs Ev).
Defined.

(** ** What a call changes *)

Section Frame.
Context {FS : Type} `{!Platform FS}.
Implicit Types (dir : string) (config : config) (w : world FS).

(** A run that reaches the delete ends with it and takes its result. *)
Lemma gate_run_deleted dir config w o w1 core :
  gate_run dir config w o w1 core ->
  In (Rimraf dir) core ->
  (exists pre, core = (pre ++ [Rimraf dir])%list /\ List.filter is_rimraf pre = []) /\
  o = match fst (fs_rimraf dir (fs w)) with
      | None => Fulfilled tt
      | Some e => Rejected e
      end /\
  fs w1 = snd (fs_rimraf dir (fs w)).
Proof.
  intros R I. destruct R; cbn in I; try (intuition discriminate).
  1-3: split; [exists [Readdir dir]; split; reflexivity|];
       rewrite rimraf_outcome; split; [reflexivity|];
       exact (proj1 (rimraf_world dir (emit (Readdir dir) w))).
  split; [eexists [Readdir dir; _; _]; split; reflexivity|].
  rewrite rimraf_outcome. split; [reflexivity|].
  exact (proj1 (rimraf_world dir (answered config answer rest (emit (Readdir dir) w)))).
Qed.

(** A run that does not reach the delete leaves the file system alone
    and does not succeed. *)
Lemma gate_run_kept dir config w o w1 core :
  gate_run dir config w o w1 core ->
  ~ In (Rimraf dir) core ->
  fs w1 = fs w /\ o <> Fulfilled tt /\ forall d, ~ In (Rimraf d) core.
Proof.
  intros R N. destruct R; try (exfalso; apply N; cbn; tauto).
  all: split; [reflexivity|]; split; [discriminate|].
  all: intros d; cbn; intuition discriminate.
Qed.

(** The events of a run name no other directory. *)
Lemma gate_run_target dir config w o w1 core (d : string) :
  gate_run dir config w o w1 core ->
  In (Rimraf d) core \/ In (Readdir d) core -> d = dir.
Proof.
  intros R I. destruct R; cbn in I;
    decompose [or] I; try discriminate; try contradiction; congruence.
Qed.

Lemma gate_run_fulfilled dir config w o w1 core :
  gate_run dir config w o w1 core -> o = Fulfilled tt -> In (Rimraf dir) core.
Proof. intros R E. destruct R; try discriminate E; cbn; tauto. Qed.

Lemma in_core dir c (o : outcome unit) (core : list event) (d : string) :
  In (Rimraf d) (core ++ echo (defaults c) o) <-> In (Rimraf d) core.
Proof.
  rewrite in_app_iff. split; [|auto].
  intros [I|I]; [exact I|].
  apply echo_only_writes in I as (e & _ & _ & I). discriminate I.
Qed.
End Frame.

(** X5: a call that succeeds has done exactly this, in order: listed the
    directory, possibly put the question and read an answer that passes
    the affirmative test, and invoked the external delete on the
    directory, once and as its last effect; no failure message was
    written; the delete has reported success and the file system left is
    the one the delete left. This holds also when the directory was
    missing or empty. *)
Theorem X5_success_means_deleted {FS : Type} `{!Platform FS}
    (dir : string) (c : option options) (w : world FS) (evs : list event) :
  fst (safeWipe (Dir dir) c w) = Result (Promise (Fulfilled tt)) ->
  events w (snd (safeWipe (Dir dir) c w)) evs ->
  (evs = [Readdir dir; Rimraf dir] \/
   exists answer,
     yes_test answer = true /\
     evs = [Readdir dir; question (defaults c);
            Answer (stdin (defaults c)) answer; Rimraf dir]) /\
  fst (fs_rimraf dir (fs w)) = None /\
  fs (snd (safeWipe (Dir dir) c w)) = snd (fs_rimraf dir (fs w)).
Proof.
  intros F Ev.
  destruct (safeWipe_run dir c w evs Ev) as (o & w1 & core & R & O & _ & -> & Fs & _).
  rewrite O in F. injection F as ->. cbn [echo]. rewrite app_nil_r.
  pose proof (gate_run_fulfilled _ _ _ _ _ _ R eq_refl) as I.
  destruct (gate_run_deleted _ _ _ _ _ _ R I) as (_ & X & Y).
  split; [|rewrite Fs; split; [|exact Y];
           destruct (fst (fs_rimraf dir (fs w))); [discriminate X|reflexivity]].
  clear I X Y Fs O Ev. remember (Fulfilled tt) as o eqn:Q.
  destruct R; try discriminate Q; try (left; reflexivity).
  right. exists answer. split; [assumption|reflexivity].
Qed.

(** [out] does not exist. *)
Lemma X5_success_means_deleted_witness :
  let w := Posix.start [("/home/user/src", inr ["main.js"])] [] [] in
  let evs := [Readdir "out"; Rimraf "out"] in
  fst (safeWipe (Dir "out") None w) = Result (Promise (Fulfilled tt)) /\
  events w (snd (safeWipe (Dir "out") None w)) evs /\
  (evs = [Readdir "out"; Rimraf "out"] \/
   exists answer,
     yes_test answer = true /\
     evs = [Readdir "out"; question (defaults None);
            Answer (stdin (defaults None)) answer; Rimraf "out"]) /\
  fst (fs_rimraf "out" (fs w)) = None /\
  fs (snd (safeWipe (Dir "out") None w)) = snd (fs_rimraf "out" (fs w)).
Proof.
  intros w evs.
  assert (F : fst (safeWipe (Dir "out") None w) = Result (Promise (Fulfilled tt)))
    by reflexivity.
  assert (Ev : events w (snd (safeWipe (Dir "out") None w)) evs) by reflexivity.
  split; [exact F|]. split; [exact Ev|].
  exact (X5_success_means_deleted "out" None w evs F Ev).
Defined.

Lemma in_core_event {FS : Type} `{!Platform FS}
    (c : option options) (o : outcome unit) (core : list event) (ev : event) :
  is_write ev = false ->
  In ev (core ++ echo (defaults c) o) <-> In ev core.
Proof.
  intros W. rewrite in_app_iff. split; [|auto].
  intros [I|I]; [exact I|].
  apply echo_only_writes in I as (e & _ & _ & ->). discriminate W.
Qed.

(** X6: a call touches no directory but its target: it lists and deletes
    no path other than the one passed, as passed; when it invokes no
    delete the file system is unchanged, and when it does the file
    system left is the one that delete left. *)
Theorem X6_frame {FS : Type} `{!Platform FS}
    (dir : string) (c : option options) (w : world FS) (evs : list event) :
  events w (snd (safeWipe (Dir dir) c w)) evs ->
  (forall d, In (Rimraf d) evs \/ In (Readdir d) evs -> d = dir) /\
  ((forall d, ~ In (Rimraf d) evs) ->
     fs (snd (safeWipe (Dir dir) c w)) = fs w) /\
  (In (Rimraf dir) evs ->
     fs (snd (safeWipe (Dir dir) c w)) = snd (fs_rimraf dir (fs w))).
Proof.
  intros Ev.
  destruct (safeWipe_run dir c w evs Ev)
    as (o & w1 & core & R & _ & _ & -> & Fs & _).
  rewrite Fs.
  split; [|split].
  - intros d I. apply (gate_run_target _ _ _ _ _ _ d R).
    rewrite !in_core_event in I by reflexivity. exact I.
  - intros N. apply (gate_run_kept _ _ _ _ _ _ R).
    intros I. apply (N dir). now apply in_core_event.
  - intros I. apply in_core_event in I; [|reflexivity].
    apply (gate_run_deleted _ _ _ _ _ _ R I).
Qed.

(** [out] holds [a.txt] and the operator answers [n]. *)
Lemma X6_frame_witness :
  let w := Posix.start [("/home/user/out", inr ["a.txt"])] [] ["n"] in
  let evs := [Readdir "out"; question (defaults None);
              Answer process_stdin "n";
              StreamWrite process_stderr (msg (defaults None) "abort" +:+ LF)] in
  events w (snd (safeWipe (Dir "out") None w)) evs /\
  (forall d, In (Rimraf d) evs \/ In (Readdir d) evs -> d = "out") /\
  ((forall d, ~ In (Rimraf d) evs) ->
     fs (snd (safeWipe (Dir "out") None w)) = fs w) /\
  (In (Rimraf "out") evs ->
     fs (snd (safeWipe (Dir "out") None w)) = snd (fs_rimraf "out" (fs w))).
Proof.
  intros w evs.
  assert (Ev : events w (snd (safeWipe (Dir "out") None w)) evs) by reflexivity.
  split; [exact Ev|].
  exact (X6_frame "out" None w evs Ev).
Defined.



(** ** A question without an answer *)

(** X8: a call never settles exactly when the target is not contained,
    the listing holds an entry that is not ignored, [force] is off,
    [interactive] is on and no line is pending on the configured input;
    all it has done then is list the directory and put the question:
    nothing is deleted and nothing is written to the error stream. *)
Theorem X8_unanswered_never_settles {FS : Type} `{!Platform FS}
    (dir : string) (c : option options) (w : world FS) :
  (fst (safeWipe (Dir dir) c w) = Result (Promise Pending) <->
   contained dir (defaults c) = false /\
   (exists files, fs_readdir dir (fs w) = inr files /\
                  kept (defaults c) files <> []) /\
   force (defaults c) = false /\
   interactive (defaults c) = true /\
   lines w (stdin (defaults c)) = []) /\
  (fst (safeWipe (Dir dir) c w) = Result (Promise Pending) ->
   snd (safeWipe (Dir dir) c w)
   = emit (question (defaults c)) (emit (Readdir dir) w)).
Proof.
  assert (B : contained dir (defaults c) = false /\
              (exists files, fs_readdir dir (fs w) = inr files /\
                             kept (defaults c) files <> []) /\
              force (defaults c) = false /\
              interactive (defaults c) = true /\
              lines w (stdin (defaults c)) = [] ->
              safeWipe (Dir dir) c w =
                (Result (Promise Pending),
                 emit (question (defaults c)) (emit (Readdir dir) w))).
  { intros (C & (files & E & K) & F & I & L). unfold safeWipe.
    assert (P : pipeline dir (defaults c) w =
                (Pending, emit (question (defaults c)) (emit (Readdir dir) w))).
    { rewrite (pipeline_checked _ _ _ C). unfold and_then.
      rewrite (checkEmpty_unanswered _ _ _ _ E K F I L). reflexivity. }
    rewrite (safeWipeRaw_pending _ _ _ _ P). reflexivity. }
  assert (A : fst (safeWipe (Dir dir) c w) = Result (Promise Pending) ->
              contained dir (defaults c) = false /\
              (exists files, fs_readdir dir (fs w) = inr files /\
                             kept (defaults c) files <> []) /\
              force (defaults c) = false /\
              interactive (defaults c) = true /\
              lines w (stdin (defaults c)) = []).
  { unfold safeWipe.
    destruct (safeWipeRaw_gate_run dir (defaults c) w) as (w1 & core & R & _).
    destruct (safeWipeRaw dir (defaults c) w) as [o w'].
    cbn [fst snd] in *. intros [= ->].
    remember Pending as o eqn:O.
    destruct R; try discriminate O;
      try (rewrite rimraf_outcome in O;
           destruct (fst (fs_rimraf _ _)); discriminate O).
    repeat split; eauto. }
  split; [split; [exact A|]|].
  - intros X. now rewrite (B X).
  - intros X. now rewrite (B (A X)).
Qed.

(** ** Reporting *)

(** X9: [silent] and [stderr] decide nothing: two calls that differ only
    in these two properties settle alike, leave the same file system and
    the same pending lines, and do the same things in the same order
    apart from writes to the error stream. *)
Theorem X9_reporting_decides_nothing {FS : Type} `{!Platform FS}
    (dir : string) (o : options) (w : world FS)
    (quiet1 quiet2 : option bool) (err1 err2 : option stream) :
  let r1 := safeWipe (Dir dir) (Some (with_reporting o quiet1 err1)) w in
  let r2 := safeWipe (Dir dir) (Some (with_reporting o quiet2 err2)) w in
  fst r1 = fst r2 /\
  fs (snd r1) = fs (snd r2) /\
  lines (snd r1) = lines (snd r2) /\
  List.filter (fun ev => negb (is_write ev)) (log (snd r1))
  = List.filter (fun ev => negb (is_write ev)) (log (snd r2)).
Proof.
  cbv zeta. unfold safeWipe.
  set (c1 := defaults (Some (with_reporting o quiet1 err1))).
  set (c2 := defaults (Some (with_reporting o quiet2 err2))).
  assert (P : pipeline dir c1 w = pipeline dir c2 w) by reflexivity.
  destruct (pipeline dir c2 w) as [r w1] eqn:P2.
  destruct r as [[]|e|].
  - rewrite (safeWipeRaw_fulfilled _ _ _ _ P), (safeWipeRaw_fulfilled _ _ _ _ P2).
    repeat split.
  - rewrite (safeWipeRaw_rejected _ _ _ _ _ P), (safeWipeRaw_rejected _ _ _ _ _ P2).
    cbn [fst snd].
    destruct (silent c1), (silent c2); cbn [emit fs lines log];
      rewrite ?List.filter_app; cbn [List.filter is_write negb];
      rewrite ?app_nil_r; repeat split.
  - rewrite (safeWipeRaw_pending _ _ _ _ P), (safeWipeRaw_pending _ _ _ _ P2).
    repeat split.
Qed.

(** ** One call after another *)

(** X10: when a call has succeeded and the directory is then gone (its
    listing fails with code ENOENT) and deleting it again succeeds, the
    same call made again succeeds too, with one listing and one delete
    and no question: the checks never hold a call against an earlier
    one. *)
Theorem X10_second_call_succeeds {FS : Type} `{!Platform FS}
    (dir : string) (c : option options) (w : world FS) (e : error) :
  fst (safeWipe (Dir dir) c w) = Result (Promise (Fulfilled tt)) ->
  fs_readdir dir (fs (snd (safeWipe (Dir dir) c w))) = inl e ->
  code e = Some "ENOENT" ->
  fst (fs_rimraf dir (fs (snd (safeWipe (Dir dir) c w)))) = None ->
  fst (safeWipe (Dir dir) c (snd (safeWipe (Dir dir) c w)))
    = Result (Promise (Fulfilled tt)) /\
  events (snd (safeWipe (Dir dir) c w))
         (snd (safeWipe (Dir dir) c (snd (safeWipe (Dir dir) c w))))
         [Readdir dir; Rimraf dir].
Proof.
  intros F E N D.
  assert (C : contained dir (defaults c) = false).
  { destruct (contained dir (defaults c)) eqn:C; [|reflexivity].
    revert F. unfold safeWipe.
    rewrite (safeWipeRaw_rejected _ _ _ _ _ (pipeline_contained _ _ w C)).
    discriminate. }
  set (w1 := snd (safeWipe (Dir dir) c w)) in *.
  apply is_enoent_code in N.
  assert (P : pipeline dir (defaults c) w1 =
              (Fulfilled tt, snd (rimraf dir (emit (Readdir dir) w1)))).
  { rewrite (pipeline_checked _ _ _ C). unfold and_then.
    rewrite (checkEmpty_missing _ _ _ _ E N).
    rewrite (surjective_pairing (rimraf dir (emit (Readdir dir) w1))) at 1.
    rewrite rimraf_outcome. cbn [emit fs]. now rewrite D. }
  unfold safeWipe. rewrite (safeWipeRaw_fulfilled _ _ _ _ P).
  cbn [fst snd]. split; [reflexivity|].
  apply (rimraf_events dir w1 _ [Readdir dir]).
  apply (events_emit w1 w1 [] (Readdir dir)), events_refl.
Qed.

(** [out] holds [a.txt] and the operator says [yes] once. *)
Lemma X10_second_call_succeeds_witness :
  let w := Posix.start [("/home/user/out", inr ["a.txt"])] [] ["yes"] in
  let e := Posix.ENOENT "scandir" "out" in
  fst (safeWipe (Dir "out") None w) = Result (Promise (Fulfilled tt)) /\
  fs_readdir "out" (fs (snd (safeWipe (Dir "out") None w))) = inl e /\
  code e = Some "ENOENT" /\
  fst (fs_rimraf "out" (fs (snd (safeWipe (Dir "out") None w)))) = None /\
  fst (safeWipe (Dir "out") None (snd (safeWipe (Dir "out") None w)))
    = Result (Promise (Fulfilled tt)) /\
  events (snd (safeWipe (Dir "out") None w))
         (snd (safeWipe (Dir "out") None (snd (safeWipe (Dir "out") None w))))
         [Readdir "out"; Rimraf "out"].
Proof.
  intros w e.
  assert (F : fst (safeWipe (Dir "out") None w) = Result (Promise (Fulfilled tt)))
    by reflexivity.
  assert (E : fs_readdir "out" (fs (snd (safeWipe (Dir "out") None w))) = inl e)
    by (vm_compute; reflexivity).
  assert (D : fst (fs_rimraf "out" (fs (snd (safeWipe (Dir "out") None w)))) = None)
    by (vm_compute; reflexivity).
  split; [exact F|]. split; [exact E|]. split; [reflexivity|]. split; [exact D|].
  exact (X10_second_call_succeeds "out" None w e F E eq_refl D).
Defined.

(** ** The failures a caller can see *)



(** [out] holds [a.txt] and nobody is at the keyboard. *)
Lemma X8_unanswered_never_settles_witness :
  let w := Posix.start [("/home/user/out", inr ["a.txt"])] [] [] in
  (contained "out" (defaults None) = false /\
   (exists files, fs_readdir "out" (fs w) = inr files /\
                  kept (defaults None) files <> []) /\
   force (defaults None) = false /\
   interactive (defaults None) = true /\
   lines w (stdin (defaults None)) = []) /\
  fst (safeWipe (Dir "out") None w) = Result (Promise Pending).
Proof.
  intros w.
  assert (B : contained "out" (defaults None) = false /\
     (exists files, fs_readdir "out" (fs w) = inr files /\
                    kept (defaults None) files <> []) /\
     force (defaults None) = false /\
     interactive (defaults None) = true /\
     lines w (stdin (defaults None)) = []).
  { split; [reflexivity|]. split; [|repeat split].
    exists ["a.txt"]. split; [reflexivity|discriminate]. }
  split; [exact B|].
  exact (proj2 (proj1 (X8_unanswered_never_settles "out" None w)) B).
Defined.
